(** * transport-sentiment-app: the helper functions and routes of backend/api.py

    A shallow embedding of [determine_transport_type],
    [determine_sentiment_score], [extract_state_from_region] and of the
    [try] blocks of the routes [/api/tweets] and [/api/states].

    Python values are modelled as follows.
    - [str] is a sequence of Unicode code points, here [list N].
    - An [int] is a [Z].  A [float] is kept as a rational ([Q]): the literals
      [0.5], [-0.5] and [0.85] are the rationals they denote, and the true
      division [a / b] of two ints is the exact quotient.  Its rounding to a
      binary64 float is left out, and so is the [OverflowError] of a
      quotient beyond the floats, which the counts of a database do not
      reach.
    - A row of the database is a dict whose keys may be absent: every field
      is an [option], read with [dict.get(key, default)].  A field that is
      there holds a value of its type: a text, a count, a [datetime].
    - An exception is a value [Raise e] of the type [result], which the
      routes turn into the response with status 500. *)

From Stdlib Require Import List NArith ZArith QArith Lia Bool String Ascii.
From Stdlib Require Import Permutation.
Import ListNotations.

Local Open Scope list_scope.

(** ** Exceptions *)

Inductive exn : Type :=
| ValueError
| IndexError
| KeyError.

Inductive result (A : Type) : Type :=
| Ok (a : A)
| Raise (e : exn).

Arguments Ok {A} a.
Arguments Raise {A} e.

Definition bind {A B : Type} (m : result A) (k : A -> result B) : result B :=
  match m with
  | Ok a => k a
  | Raise e => Raise e
  end.

Notation "x <- m ;; k" := (bind m (fun x => k))
  (at level 61, m at next level, right associativity).

(** What a route returns: the JSON body with status 200, or the error body
    with status 500 when the [try] block raised. *)
Inductive response (A : Type) : Type :=
| Json200 (body : A)
| Error500 (e : exn).

Arguments Json200 {A} body.
Arguments Error500 {A} e.

Definition respond {A : Type} (m : result A) : response A :=
  match m with
  | Ok a => Json200 a
  | Raise e => Error500 e
  end.

(** ** Python strings *)

Definition char : Type := N.
Definition str : Type := list char.

(** An ASCII literal of the source, as code points. *)
Definition lit (s : string) : str :=
  List.map N_of_ascii (list_ascii_of_string s).

Fixpoint str_eqb (a b : str) : bool :=
  match a, b with
  | [], [] => true
  | x :: a', y :: b' => N.eqb x y && str_eqb a' b'
  | _, _ => false
  end.

Definition comma : char := 44%N.

(** [c in s] for a one-character [c]. *)
Definition has_char (c : char) (s : str) : bool :=
  existsb (N.eqb c) s.

(** [str.isspace] of one code point: the ASCII white space and separators
    and the Unicode white-space code points. *)
Definition isspace (c : char) : bool :=
  ((9 <=? c) && (c <=? 13) || (28 <=? c) && (c <=? 32)
   || (c =? 133) || (c =? 160) || (c =? 5760)
   || (8192 <=? c) && (c <=? 8202)
   || (c =? 8232) || (c =? 8233) || (c =? 8239) || (c =? 8287)
   || (c =? 12288))%N.

Fixpoint lstrip (s : str) : str :=
  match s with
  | [] => []
  | c :: t => if isspace c then lstrip t else s
  end.

Definition rstrip (s : str) : str := rev (lstrip (rev s)).

(** [s.strip()] *)
Definition strip (s : str) : str := rstrip (lstrip s).

(** [s.split(sep, maxsplit)] for a one-character separator; [budget] is the
    number of splits still allowed, [None] when there is no limit, and [cur]
    holds the current part, reversed. *)
Fixpoint split_go (sep : char) (budget : option nat) (cur : str) (s : str)
  {struct s} : list str :=
  match budget with
  | Some O => [rev_append cur s]
  | _ =>
      match s with
      | [] => [rev cur]
      | c :: t =>
          if N.eqb c sep
          then rev cur :: split_go sep (option_map pred budget) [] t
          else split_go sep budget (c :: cur) t
      end
  end.

Definition split (s : str) (sep : char) (maxsplit : option nat) : list str :=
  split_go sep maxsplit [] s.

(** [l[-1]] *)
Definition item_last {A : Type} (l : list A) : result A :=
  match rev l with
  | x :: _ => Ok x
  | [] => Raise IndexError
  end.

(** [a, b = l] *)
Definition unpack2 {A : Type} (l : list A) : result (A * A) :=
  match l with
  | [a; b] => Ok (a, b)
  | _ => Raise ValueError
  end.

(** [p in s] for strings: [p] occurs in [s] as a contiguous run. *)
Fixpoint startswith (s p : str) {struct p} : bool :=
  match p, s with
  | [], _ => true
  | a :: p', b :: s' => N.eqb a b && startswith s' p'
  | _ :: _, [] => false
  end.

Fixpoint contains (s p : str) : bool :=
  startswith s p ||
  match s with
  | [] => false
  | _ :: t => contains t p
  end.

Definition is_ascii_upper (c : char) : bool := ((65 <=? c) && (c <=? 90))%N.

Definition ascii_lower (c : char) : char :=
  if is_ascii_upper c then (c + 32)%N else c.

(** [dict.get(key, default)] on a row: the field is [None] when the key is
    absent. *)
Definition get {A : Type} (field : option A) (default : A) : A :=
  match field with
  | Some v => v
  | None => default
  end.

(** A dict with string keys, in insertion order. *)
Definition dict (V : Type) : Type := list (str * V).

Fixpoint lookup {V : Type} (k : str) (d : dict V) : option V :=
  match d with
  | [] => None
  | (k', v) :: rest => if str_eqb k k' then Some v else lookup k rest
  end.

(** ** A setting to run the program in *)

(** The lowering that leaves every code point outside ASCII as it is: what
    [str.lower] does on a text whose letters outside ASCII have no case. *)
Definition caseless_lower : str -> char -> str -> str :=
  fun _ c _ => [c].

(** A [datetime] without microseconds and time zone. *)
Record naive_datetime : Type := {
  dt_year : N;
  dt_month : N;
  dt_day : N;
  dt_hour : N;
  dt_minute : N;
  dt_second : N
}.

Definition digit (n : N) : char := (48 + n mod 10)%N.

Definition pad2 (n : N) : str := [digit (n / 10); digit n].

Definition pad4 (n : N) : str :=
  [digit (n / 1000); digit (n / 100); digit (n / 10); digit n].

(** [YYYY-MM-DDTHH:MM:SS] *)
Definition naive_isoformat (d : naive_datetime) : str :=
  pad4 (dt_year d) ++ lit "-" ++ pad2 (dt_month d) ++ lit "-"
  ++ pad2 (dt_day d) ++ lit "T" ++ pad2 (dt_hour d) ++ lit ":"
  ++ pad2 (dt_minute d) ++ lit ":" ++ pad2 (dt_second d).

Definition noon : naive_datetime :=
  {| dt_year := 2024; dt_month := 3; dt_day := 9;
     dt_hour := 12; dt_minute := 0; dt_second := 0 |}.

(** ** The program *)

Section Service.

(** [str.lower] maps every code point to its lower-case form, which
    outside ASCII is given by Unicode's tables and may be several code
    points long and depend on the neighbouring text (the final sigma).
    The tables are not part of this program: [unicode_lower before c after]
    stands for the lower-case form of the non-ASCII code point [c] standing
    between [before] and [after]. *)
Variable unicode_lower : str -> char -> str -> str.

(** [datetime.datetime] and its method [isoformat]. *)
Variable datetime : Type.
Variable isoformat : datetime -> str.

Definition lower_char (before : str) (c : char) (after : str) : str :=
  if (c <? 128)%N then [ascii_lower c] else unicode_lower before c after.

Fixpoint lower_go (before : str) (s : str) : str :=
  match s with
  | [] => []
  | c :: after => lower_char before c after ++ lower_go (before ++ [c]) after
  end.

(** [s.lower()] *)
Definition lower (s : str) : str := lower_go [] s.

(** *** Helper functions *)

Definition metro_keywords : list str :=
  [ lit "metro";
    [224; 164; 174; 224; 165; 8225; 224; 164; 376; 224; 165; 224; 164; 176;
     224; 165; 8249]%N;
    lit "subway"; lit "dmrc" ].

Definition train_keywords : list str :=
  [ lit "train";
    [224; 164; 376; 224; 165; 224; 164; 176; 224; 165; 8225; 224; 164;
     168]%N;
    lit "railway"; lit "irctc"; lit "local train" ].

Definition auto_keywords : list str :=
  [ lit "auto";
    [224; 164; 8216; 224; 164; 376; 224; 165; 8249]%N;
    lit "rickshaw"; lit "three wheeler" ].

Definition taxi_keywords : list str :=
  [ lit "taxi";
    [224; 164; 376; 224; 165; 710; 224; 164; 8226; 224; 165; 224; 164; 184;
     224; 165; 8364]%N;
    lit "cab"; lit "ola"; lit "uber" ].

(** [any(keyword in text for keyword in keywords)] *)
Definition any_in (keywords : list str) (text : str) : bool :=
  existsb (fun keyword => contains text keyword) keywords.

Definition determine_transport_type (text : str) : str :=
  let text := lower text in
  if any_in metro_keywords text then lit "metro"
  else if any_in train_keywords text then lit "train"
  else if any_in auto_keywords text then lit "auto"
  else if any_in taxi_keywords text then lit "taxi"
  else lit "bus".

Definition sentiment_scores : dict Q :=
  [ (lit "positive", 0.5%Q); (lit "negative", (-0.5)%Q);
    (lit "neutral", 0%Q) ].

Definition determine_sentiment_score (label : str) : Q :=
  get (lookup (lower label) sentiment_scores) 0%Q.

Definition extract_state_from_region (region : str) : result str :=
  if has_char comma region then
    part <- item_last (split region comma None) ;;
    Ok (strip part)
  else Ok (strip region).

(** *** /api/tweets *)

Record RawRecord : Type := {
  r_id : option Z;
  r_text : option str;
  r_region : option str;
  r_sentiment : option str;
  r_created_at : option datetime
}.

Record Sentiment : Type := {
  polarity : Q;
  label : str;
  confidence : Q
}.

Record EnrichedTweet : Type := {
  tw_id : option Z;
  tw_text : str;
  tw_timestamp : str;
  tw_location : str;
  tw_state : str;
  tw_city : str;
  tw_transportType : str;
  tw_sentiment : Sentiment
}.

(** The body of the loop of [get_tweets]; [now] is what
    [datetime.datetime.now()] returns when the row is read. *)
Definition enrich (now : datetime) (row : RawRecord) : result EnrichedTweet :=
  let text := get (r_text row) (lit "") in
  let region := get (r_region row) (lit "India") in
  let sentiment_label := get (r_sentiment row) (lit "neutral") in
  let created_at := get (r_created_at row) now in
  let transport_type := determine_transport_type text in
  city_state <-
    (if has_char comma region
     then unpack2 (List.map strip (split region comma (Some 1%nat)))
     else Ok (strip region, strip region)) ;;
  Ok {| tw_id := r_id row;
        tw_text := text;
        tw_timestamp := isoformat created_at;
        tw_location := region;
        tw_state := snd city_state;
        tw_city := fst city_state;
        tw_transportType := transport_type;
        tw_sentiment :=
          {| polarity := determine_sentiment_score sentiment_label;
             label := sentiment_label;
             confidence := 0.85%Q |} |}.

Fixpoint enrich_all (clock : nat -> datetime) (i : nat)
  (rows : list RawRecord) : result (list EnrichedTweet) :=
  match rows with
  | [] => Ok []
  | row :: rest =>
      tweet <- enrich (clock i) row ;;
      tweets <- enrich_all clock (S i) rest ;;
      Ok (tweet :: tweets)
  end.

(** [rows] is what [db.get_recent_tweets(limit=100)] returned and
    [clock i] the time read while row [i] is handled. *)
Definition get_tweets (clock : nat -> datetime) (rows : list RawRecord)
  : response (list EnrichedTweet) :=
  respond (enrich_all clock 0 rows).

(** *** /api/states *)

Record SummaryRow : Type := {
  s_region : option str;
  s_total_messages : option Z;
  s_positive_count : option Z;
  s_negative_count : option Z;
  s_neutral_count : option Z
}.

(** One value of [state_data]. *)
Record Bucket : Type := {
  total_messages : Z;
  positive_count : Z;
  negative_count : Z;
  neutral_count : Z;
  transport_breakdown : dict Z
}.

(** The value the [defaultdict] creates for a key it does not hold. *)
Definition default_bucket : Bucket :=
  {| total_messages := 0;
     positive_count := 0;
     negative_count := 0;
     neutral_count := 0;
     transport_breakdown :=
       [ (lit "bus", 0%Z); (lit "metro", 0%Z); (lit "train", 0%Z);
         (lit "auto", 0%Z); (lit "taxi", 0%Z) ] |}.

(** [d[k] += n] on a plain dict: [KeyError] when [k] is not a key. *)
Fixpoint dict_add (k : str) (n : Z) (d : dict Z) : result (dict Z) :=
  match d with
  | [] => Raise KeyError
  | (k', v) :: rest =>
      if str_eqb k k' then Ok ((k', (v + n)%Z) :: rest)
      else rest' <- dict_add k n rest ;; Ok ((k', v) :: rest')
  end.

(** [state_data[state]] followed by an update [f] of the bucket in place:
    a state that is not a key yet is added, after all the others, with the
    default bucket. *)
Fixpoint update_bucket (state : str) (f : Bucket -> result Bucket)
  (state_data : dict Bucket) : result (dict Bucket) :=
  match state_data with
  | [] => data <- f default_bucket ;; Ok [(state, data)]
  | (k, data) :: rest =>
      if str_eqb state k then data' <- f data ;; Ok ((k, data') :: rest)
      else rest' <- update_bucket state f rest ;; Ok ((k, data) :: rest')
  end.

Definition incr_transport (transport : str) (data : Bucket) : result Bucket :=
  breakdown <- dict_add transport 1 (transport_breakdown data) ;;
  Ok {| total_messages := total_messages data;
        positive_count := positive_count data;
        negative_count := negative_count data;
        neutral_count := neutral_count data;
        transport_breakdown := breakdown |}.

Definition add_total (n : Z) (data : Bucket) : result Bucket :=
  Ok {| total_messages := total_messages data + n;
        positive_count := positive_count data;
        negative_count := negative_count data;
        neutral_count := neutral_count data;
        transport_breakdown := transport_breakdown data |}.

Definition add_positive (n : Z) (data : Bucket) : result Bucket :=
  Ok {| total_messages := total_messages data;
        positive_count := positive_count data + n;
        negative_count := negative_count data;
        neutral_count := neutral_count data;
        transport_breakdown := transport_breakdown data |}.

Definition add_negative (n : Z) (data : Bucket) : result Bucket :=
  Ok {| total_messages := total_messages data;
        positive_count := positive_count data;
        negative_count := negative_count data + n;
        neutral_count := neutral_count data;
        transport_breakdown := transport_breakdown data |}.

Definition add_neutral (n : Z) (data : Bucket) : result Bucket :=
  Ok {| total_messages := total_messages data;
        positive_count := positive_count data;
        negative_count := negative_count data;
        neutral_count := neutral_count data + n;
        transport_breakdown := transport_breakdown data |}.

(** The body of the first loop. *)
Definition count_tweet (state_data : dict Bucket) (tweet : RawRecord)
  : result (dict Bucket) :=
  state <- extract_state_from_region (get (r_region tweet) (lit "Unknown")) ;;
  let transport := determine_transport_type (get (r_text tweet) (lit "")) in
  update_bucket state (incr_transport transport) state_data.

(** The body of the second loop. *)
Definition add_row (state_data : dict Bucket) (row : SummaryRow)
  : result (dict Bucket) :=
  state <- extract_state_from_region (get (s_region row) (lit "Unknown")) ;;
  state_data <-
    update_bucket state (add_total (get (s_total_messages row) 0%Z))
      state_data ;;
  state_data <-
    update_bucket state (add_positive (get (s_positive_count row) 0%Z))
      state_data ;;
  state_data <-
    update_bucket state (add_negative (get (s_negative_count row) 0%Z))
      state_data ;;
  update_bucket state (add_neutral (get (s_neutral_count row) 0%Z))
    state_data.

(** [for x in l: acc = body(acc, x)], stopping at the first exception. *)
Fixpoint for_each {S X : Type} (body : S -> X -> result S) (l : list X)
  (acc : S) : result S :=
  match l with
  | [] => Ok acc
  | x :: rest => acc' <- body acc x ;; for_each body rest acc'
  end.

Record SentimentBreakdown : Type := {
  positive : Z;
  negative : Z;
  neutral : Z
}.

Record StateReport : Type := {
  state : str;
  sentimentScore : Q;
  totalMessages : Z;
  transportBreakdown : dict Z;
  sentimentBreakdown : SentimentBreakdown
}.

Definition report (state : str) (data : Bucket) : StateReport :=
  let sentiment_score :=
    (inject_Z (positive_count data - negative_count data)
     / inject_Z (total_messages data))%Q in
  {| state := state;
     sentimentScore := sentiment_score;
     totalMessages := total_messages data;
     transportBreakdown := transport_breakdown data;
     sentimentBreakdown :=
       {| positive := positive_count data;
          negative := negative_count data;
          neutral := neutral_count data |} |}.

(** The last loop, over [state_data.items()]. *)
Fixpoint reports (state_data : dict Bucket) : list StateReport :=
  match state_data with
  | [] => []
  | (state, data) :: rest =>
      if (0 <? total_messages data)%Z
      then report state data :: reports rest
      else reports rest
  end.

(** The [try] block of [get_states_summary]: [rows] is what
    [db.get_state_summary()] returned and [all_tweets] what
    [db.get_recent_tweets(limit=10000)] returned. *)
Definition states_summary (rows : list SummaryRow)
  (all_tweets : list RawRecord) : result (list StateReport) :=
  state_data <- for_each count_tweet all_tweets [] ;;
  state_data <- for_each add_row rows state_data ;;
  Ok (reports state_data).

Definition get_states_summary (rows : list SummaryRow)
  (all_tweets : list RawRecord) : response (list StateReport) :=
  respond (states_summary rows all_tweets).


(** ** Vocabulary of the specification *)

(** The part of [s] before the first [sep], all of [s] when there is none. *)
Fixpoint before_first (sep : char) (s : str) : str :=
  match s with
  | [] => []
  | c :: t => if N.eqb c sep then [] else c :: before_first sep t
  end.

(** The part of [s] after the first [sep], empty when there is none. *)
Fixpoint after_first (sep : char) (s : str) : str :=
  match s with
  | [] => []
  | c :: t => if N.eqb c sep then t else after_first sep t
  end.

(** The part of [s] after the last [sep], all of [s] when there is none. *)
Definition after_last (sep : char) (s : str) : str :=
  rev (before_first sep (rev s)).

(** The state a region string stands for in [/api/states]. *)
Definition state_of_region (region : str) : str :=
  strip (after_last comma region).

(** The city and the state [/api/tweets] shows for a region: the region is
    cut at its first comma. *)
Definition shown_city (region : str) : str :=
  strip (before_first comma region).

Definition shown_state (region : str) : str :=
  if has_char comma region then strip (after_first comma region)
  else strip region.

(** [label] is the word [word], written in lower-case ASCII, with any of
    its letters in upper case. *)
Definition casing_of (word : str) (label : str) : Prop :=
  Forall (fun c => (c < 128)%N) label /\ List.map ascii_lower label = word.

(** [p] occurs in [s]. *)
Definition occurs_in (p s : str) : Prop :=
  exists before after, s = before ++ p ++ after.

(** Some keyword of the group occurs in [text]. *)
Definition matches (keywords : list str) (text : str) : Prop :=
  exists keyword, In keyword keywords /\ occurs_in keyword text.

Definition mem (k : str) (l : list str) : bool := existsb (str_eqb k) l.

(** The keys of [l] in the order of their first appearance. *)
Fixpoint first_seen (l : list str) : list str :=
  match l with
  | [] => []
  | k :: rest =>
      k :: List.filter (fun x => negb (str_eqb x k)) (first_seen rest)
  end.

(** [a] stands before [b] in [l]. *)
Definition precedes (a b : str) (l : list str) : Prop :=
  exists l1 l2 l3, l = l1 ++ a :: l2 ++ b :: l3.

Definition tweet_state (tweet : RawRecord) : str :=
  state_of_region (get (r_region tweet) (lit "Unknown")).

Definition row_state (row : SummaryRow) : str :=
  state_of_region (get (s_region row) (lit "Unknown")).

(** The sum of the count [field] over the summary rows of [state]. *)
Fixpoint accumulated (field : SummaryRow -> option Z) (state : str)
  (rows : list SummaryRow) : Z :=
  match rows with
  | [] => 0
  | row :: rest =>
      ((if str_eqb (row_state row) state then get (field row) 0 else 0)
       + accumulated field state rest)%Z
  end.

(** The number of tweets of [state] whose text is classified as
    [transport]. *)
Fixpoint tweet_count (transport : str) (state : str)
  (tweets : list RawRecord) : Z :=
  match tweets with
  | [] => 0
  | tweet :: rest =>
      ((if str_eqb (tweet_state tweet) state
           && str_eqb (determine_transport_type (get (r_text tweet) (lit "")))
                transport
        then 1 else 0)
       + tweet_count transport state rest)%Z
  end.

Definition transport_types : list str :=
  [lit "bus"; lit "metro"; lit "train"; lit "auto"; lit "taxi"].

(** The bucket of [state] once the tweets and the summary rows are read:
    the accumulated counts of its rows and the number of its tweets of each
    transport type. *)
Definition bucket_of (tweets : list RawRecord) (rows : list SummaryRow)
  (state : str) : Bucket :=
  {| total_messages := accumulated s_total_messages state rows;
     positive_count := accumulated s_positive_count state rows;
     negative_count := accumulated s_negative_count state rows;
     neutral_count := accumulated s_neutral_count state rows;
     transport_breakdown :=
       List.map (fun transport =>
                   (transport, tweet_count transport state tweets))
         transport_types |}.

(** The states met in the tweets and then in the summary rows. *)
Definition states_met (tweets : list RawRecord) (rows : list SummaryRow)
  : list str :=
  first_seen (List.map tweet_state tweets ++ List.map row_state rows).

Definition state_data_of (tweets : list RawRecord) (rows : list SummaryRow)
  : dict Bucket :=
  List.map (fun state => (state, bucket_of tweets rows state))
    (states_met tweets rows).

(** A summary row whose counts are those of a count of messages. *)
Definition consistent (row : SummaryRow) : Prop :=
  (0 <= get (s_positive_count row) 0
   /\ 0 <= get (s_negative_count row) 0
   /\ get (s_positive_count row) 0 + get (s_negative_count row) 0
      <= get (s_total_messages row) 0)%Z.

(** A row with every absent field set to the value [/api/states] reads
    for it. *)
Definition fill_tweet (tweet : RawRecord) : RawRecord :=
  {| r_id := r_id tweet;
     r_text := Some (get (r_text tweet) (lit ""));
     r_region := Some (get (r_region tweet) (lit "Unknown"));
     r_sentiment := r_sentiment tweet;
     r_created_at := r_created_at tweet |}.

Definition fill_row (row : SummaryRow) : SummaryRow :=
  {| s_region := Some (get (s_region row) (lit "Unknown"));
     s_total_messages := Some (get (s_total_messages row) 0%Z);
     s_positive_count := Some (get (s_positive_count row) 0%Z);
     s_negative_count := Some (get (s_negative_count row) 0%Z);
     s_neutral_count := Some (get (s_neutral_count row) 0%Z) |}.

(** The reports are those of the states met, in that order, whose
    accumulated total is positive. *)
Definition reports_of (tweets : list RawRecord) (rows : list SummaryRow)
  : list StateReport :=
  List.map (fun state => report state (bucket_of tweets rows state))
    (List.filter
       (fun state => (0 <? accumulated s_total_messages state rows)%Z)
       (states_met tweets rows)).

(** [a <= b] on strings: the order of the code points. *)
Fixpoint str_leb (a b : str) : bool :=
  match a, b with
  | [], _ => true
  | _ :: _, [] => false
  | x :: a', y :: b' => (x <? y)%N || ((x =? y)%N && str_leb a' b')
  end.

(** [l] is sorted for the order [leb]. *)
Fixpoint ascending {A : Type} (leb : A -> A -> bool) (l : list A) : bool :=
  match l with
  | x :: (y :: _) as rest => leb x y && ascending leb rest
  | _ => true
  end.

(** [s] neither starts nor ends with white space. *)
Definition trimmed (s : str) : Prop :=
  (forall c t, s = c :: t -> isspace c = false)
  /\ (forall c t, s = t ++ [c] -> isspace c = false).

(** The sum of a list of ints. *)
Fixpoint sum_Z (l : list Z) : Z :=
  match l with
  | [] => 0
  | x :: rest => (x + sum_Z rest)%Z
  end.


(** What [/api/states] reads of a tweet: its state and its transport
    type. *)
Definition tweet_key (tweet : RawRecord) : str * str :=
  (tweet_state tweet, determine_transport_type (get (r_text tweet) (lit ""))).

(** One summary row for two: the region of the first and the sums of the
    counts. *)
Definition merge_rows (a b : SummaryRow) : SummaryRow :=
  {| s_region := s_region a;
     s_total_messages :=
       Some (get (s_total_messages a) 0 + get (s_total_messages b) 0)%Z;
     s_positive_count :=
       Some (get (s_positive_count a) 0 + get (s_positive_count b) 0)%Z;
     s_negative_count :=
       Some (get (s_negative_count a) 0 + get (s_negative_count b) 0)%Z;
     s_neutral_count :=
       Some (get (s_neutral_count a) 0 + get (s_neutral_count b) 0)%Z |}.

(** ** Strings *)

Lemma str_eqb_eq (a b : str) : str_eqb a b = true <-> a = b.
Proof.
  revert b; induction a as [|x a IH]; intros [|y b]; simpl;
    try (split; [discriminate | discriminate]); try tauto.
  rewrite andb_true_iff, N.eqb_eq, IH.
  split; [intros [-> ->]; reflexivity | intros H; inversion H; auto].
Qed.

Lemma str_eqb_refl (a : str) : str_eqb a a = true.
Proof. apply str_eqb_eq; reflexivity. Qed.

Lemma str_eqb_neq (a b : str) : str_eqb a b = false <-> a <> b.
Proof.
  rewrite <- str_eqb_eq. destruct (str_eqb a b); split; congruence.
Qed.

Lemma str_eqb_sym (a b : str) : str_eqb a b = str_eqb b a.
Proof.
  destruct (str_eqb b a) eqn:E.
  - apply str_eqb_eq in E; subst; apply str_eqb_refl.
  - apply str_eqb_neq in E; apply str_eqb_neq; congruence.
Qed.

Lemma has_char_In (c : char) (s : str) : has_char c s = true <-> In c s.
Proof.
  unfold has_char. rewrite existsb_exists. split.
  - intros [x [Hx E]]. apply N.eqb_eq in E. subst; assumption.
  - intros H. exists c. split; [assumption | apply N.eqb_refl].
Qed.

Lemma has_char_false (c : char) (s : str) :
  has_char c s = false <-> ~ In c s.
Proof.
  rewrite <- has_char_In. destruct (has_char c s); split; congruence.
Qed.

(** *** split *)

Lemma split_go_no_sep (sep : char) (budget : option nat) (s cur : str) :
  ~ In sep s -> split_go sep budget cur s = [rev cur ++ s].
Proof.
  revert cur budget; induction s as [|c t IH]; intros cur budget Hs.
  - destruct budget as [[|n]|]; simpl;
      rewrite ?rev_append_rev, ?app_nil_r; reflexivity.
  - assert (Hc : N.eqb c sep = false).
    { apply N.eqb_neq. intros ->. apply Hs; left; reflexivity. }
    assert (Ht : ~ In sep t) by (intros H; apply Hs; right; exact H).
    destruct budget as [[|n]|]; simpl.
    + rewrite rev_append_rev; reflexivity.
    + rewrite Hc, IH by assumption. simpl. rewrite <- app_assoc. reflexivity.
    + rewrite Hc, IH by assumption. simpl. rewrite <- app_assoc. reflexivity.
Qed.

Lemma split_go_nonempty (sep : char) (budget : option nat) (s cur : str) :
  split_go sep budget cur s <> [].
Proof.
  revert cur budget; induction s as [|c t IH]; intros cur budget.
  - destruct budget as [[|n]|]; simpl; discriminate.
  - destruct budget as [[|n]|]; simpl; try discriminate;
      destruct (N.eqb c sep); try discriminate; apply IH.
Qed.

Lemma item_last_cons {A : Type} (x : A) (l : list A) :
  l <> [] -> item_last (x :: l) = item_last l.
Proof.
  intros Hl. unfold item_last. simpl.
  destruct (rev l) as [|y r] eqn:E.
  - exfalso. apply Hl. apply (f_equal (@rev A)) in E.
    rewrite rev_involutive in E. exact E.
  - reflexivity.
Qed.

(** Splitting without a limit: the last part is what follows the last
    separator. *)
Lemma split_go_last (sep : char) (a b cur : str) :
  ~ In sep b ->
  item_last (split_go sep None cur (a ++ sep :: b)) = Ok b.
Proof.
  intros Hb. revert cur; induction a as [|c a IH]; intros cur; simpl.
  - rewrite N.eqb_refl. rewrite split_go_no_sep by assumption.
    reflexivity.
  - destruct (N.eqb c sep).
    + rewrite item_last_cons by apply split_go_nonempty. apply IH.
    + apply IH.
Qed.

(** Splitting once: the part before the first separator and the rest. *)
Lemma split_go_once (sep : char) (a b cur : str) :
  ~ In sep a ->
  split_go sep (Some 1%nat) cur (a ++ sep :: b) = [rev cur ++ a; b].
Proof.
  revert cur; induction a as [|c a IH]; intros cur Ha; simpl.
  - rewrite N.eqb_refl, app_nil_r. destruct b; reflexivity.
  - assert (Hc : N.eqb c sep = false).
    { apply N.eqb_neq. intros ->. apply Ha; left; reflexivity. }
    rewrite Hc, IH by (intros H; apply Ha; right; exact H).
    simpl. rewrite <- app_assoc. reflexivity.
Qed.

Lemma before_first_no_sep (sep : char) (s : str) :
  ~ In sep s -> before_first sep s = s.
Proof.
  induction s as [|c t IH]; simpl; intros H; [reflexivity|].
  destruct (N.eqb c sep) eqn:E.
  - apply N.eqb_eq in E. subst. exfalso; apply H; left; reflexivity.
  - rewrite IH; [reflexivity | intros Hin; apply H; right; exact Hin].
Qed.

Lemma before_first_app (sep : char) (a b : str) :
  ~ In sep a -> before_first sep (a ++ sep :: b) = a.
Proof.
  induction a as [|c a IH]; simpl; intros H.
  - rewrite N.eqb_refl; reflexivity.
  - destruct (N.eqb c sep) eqn:E.
    + apply N.eqb_eq in E. subst. exfalso; apply H; left; reflexivity.
    + rewrite IH; [reflexivity | intros Hin; apply H; right; exact Hin].
Qed.

Lemma after_first_app (sep : char) (a b : str) :
  ~ In sep a -> after_first sep (a ++ sep :: b) = b.
Proof.
  induction a as [|c a IH]; simpl; intros H.
  - rewrite N.eqb_refl; reflexivity.
  - destruct (N.eqb c sep) eqn:E.
    + apply N.eqb_eq in E. subst. exfalso; apply H; left; reflexivity.
    + apply IH. intros Hin; apply H; right; exact Hin.
Qed.

(** A string that holds [sep] is cut at the first occurrence. *)
Lemma first_occurrence (sep : char) (s : str) :
  In sep s ->
  s = before_first sep s ++ sep :: after_first sep s
  /\ ~ In sep (before_first sep s).
Proof.
  induction s as [|c t IH]; simpl; intros H; [contradiction|].
  destruct (N.eqb c sep) eqn:E.
  - apply N.eqb_eq in E. subst. split; [reflexivity | intros []].
  - destruct H as [H|H]; [subst; rewrite N.eqb_refl in E; discriminate|].
    destruct (IH H) as [Heq Hno]. split.
    + simpl. f_equal. exact Heq.
    + intros [Hc|Hin]; [|exact (Hno Hin)].
      subst. rewrite N.eqb_refl in E; discriminate.
Qed.

Lemma after_last_no_sep (sep : char) (s : str) :
  ~ In sep s -> after_last sep s = s.
Proof.
  intros H. unfold after_last.
  rewrite before_first_no_sep, rev_involutive; [reflexivity|].
  intros Hin. apply H. apply in_rev. exact Hin.
Qed.

Lemma after_last_app (sep : char) (a b : str) :
  ~ In sep b -> after_last sep (a ++ sep :: b) = b.
Proof.
  intros H. unfold after_last.
  rewrite rev_app_distr. simpl. rewrite <- app_assoc. simpl.
  rewrite before_first_app, rev_involutive; [reflexivity|].
  intros Hin. apply H. apply in_rev. exact Hin.
Qed.

(** A string that holds [sep] is cut at the last occurrence. *)
Lemma last_occurrence (sep : char) (s : str) :
  In sep s ->
  exists a, s = a ++ sep :: after_last sep s
            /\ ~ In sep (after_last sep s).
Proof.
  intros H. unfold after_last.
  assert (Hr : In sep (rev s)) by (apply in_rev; rewrite rev_involutive; exact H).
  destruct (first_occurrence sep (rev s) Hr) as [Heq Hno].
  exists (rev (after_first sep (rev s))). split.
  - apply (f_equal (@rev char)) in Heq. rewrite rev_involutive in Heq.
    rewrite Heq at 1. rewrite rev_app_distr. simpl.
    rewrite <- app_assoc. reflexivity.
  - intros Hin. apply Hno. apply in_rev. exact Hin.
Qed.

(** *** strip *)

Lemma lstrip_spec (s : str) :
  exists l, s = l ++ lstrip s /\ forallb isspace l = true
            /\ match lstrip s with
               | [] => True
               | c :: _ => isspace c = false
               end.
Proof.
  induction s as [|c t IH]; simpl.
  - exists []. repeat split.
  - destruct (isspace c) eqn:E.
    + destruct IH as [l [H1 [H2 H3]]]. exists (c :: l). simpl.
      rewrite E, H2. repeat split; [f_equal; exact H1 | exact H3].
    + exists []. repeat split. exact E.
Qed.

(** What [strip] removes is white space at both ends, and what it leaves
    neither starts nor ends with white space. *)
Lemma strip_spec (s : str) :
  exists l r,
    s = l ++ strip s ++ r
    /\ forallb isspace l = true /\ forallb isspace r = true
    /\ match strip s with
       | [] => True
       | c :: _ => isspace c = false
       end
    /\ match rev (strip s) with
       | [] => True
       | c :: _ => isspace c = false
       end.
Proof.
  destruct (lstrip_spec s) as [l [Hl [Hls Hlh]]].
  destruct (lstrip_spec (rev (lstrip s))) as [r [Hr [Hrs Hrh]]].
  exists l, (rev r). unfold strip, rstrip.
  assert (E : lstrip s = rev (lstrip (rev (lstrip s))) ++ rev r).
  { apply (f_equal (@rev char)) in Hr. rewrite rev_involutive in Hr.
    rewrite Hr at 1. apply rev_app_distr. }
  repeat split.
  - rewrite <- E. exact Hl.
  - exact Hls.
  - rewrite forallb_forall in *. intros x Hx. apply Hrs.
    apply in_rev. exact Hx.
  - destruct (rev (lstrip (rev (lstrip s)))) as [|c u] eqn:Eu; [exact I|].
    simpl in E. rewrite E in Hlh. exact Hlh.
  - rewrite rev_involutive. exact Hrh.
Qed.

(** *** The two ways a region is cut *)

Lemma extract_state_of_region (region : str) :
  extract_state_from_region region = Ok (state_of_region region).
Proof.
  unfold extract_state_from_region, state_of_region.
  destruct (has_char comma region) eqn:E.
  - apply has_char_In in E.
    destruct (last_occurrence comma region E) as [a [Heq Hno]].
    unfold split. rewrite Heq at 1.
    rewrite split_go_last by exact Hno. reflexivity.
  - apply has_char_false in E. rewrite after_last_no_sep by exact E.
    reflexivity.
Qed.

Lemma split_once_comma (region : str) :
  In comma region ->
  unpack2 (List.map strip (split region comma (Some 1%nat)))
  = Ok (strip (before_first comma region), strip (after_first comma region)).
Proof.
  intros H. destruct (first_occurrence comma region H) as [Heq Hno].
  unfold split. rewrite Heq at 1.
  rewrite split_go_once by exact Hno. reflexivity.
Qed.

Lemma enrich_ok (now : datetime) (row : RawRecord) :
  let text := get (r_text row) (lit "") in
  let region := get (r_region row) (lit "India") in
  let sentiment_label := get (r_sentiment row) (lit "neutral") in
  enrich now row =
  Ok {| tw_id := r_id row;
        tw_text := text;
        tw_timestamp := isoformat (get (r_created_at row) now);
        tw_location := region;
        tw_state := shown_state region;
        tw_city := shown_city region;
        tw_transportType := determine_transport_type text;
        tw_sentiment :=
          {| polarity := determine_sentiment_score sentiment_label;
             label := sentiment_label;
             confidence := 0.85%Q |} |}.
Proof.
  intros text region sentiment_label.
  unfold enrich, shown_state, shown_city. fold text region sentiment_label.
  destruct (has_char comma region) eqn:E.
  - apply has_char_In in E. rewrite split_once_comma by exact E.
    reflexivity.
  - apply has_char_false in E. rewrite before_first_no_sep by exact E.
    reflexivity.
Qed.

Lemma enrich_all_ok (clock : nat -> datetime) (rows : list RawRecord) :
  forall i, exists tweets,
    enrich_all clock i rows = Ok tweets
    /\ List.length tweets = List.length rows.
Proof.
  induction rows as [|row rest IH]; intros i; simpl.
  - exists []. split; reflexivity.
  - rewrite enrich_ok. cbv zeta. simpl.
    destruct (IH (S i)) as [tweets [-> Hlen]]. simpl.
    eexists. split; [reflexivity|]. simpl. rewrite Hlen. reflexivity.
Qed.

(** *** Substrings *)

Lemma startswith_spec (s p : str) :
  startswith s p = true <-> exists r, s = p ++ r.
Proof.
  revert s; induction p as [|a p IH]; intros s; simpl.
  - split; [intros _; exists s; reflexivity | reflexivity].
  - destruct s as [|b s].
    + split; [discriminate | intros [r H]; discriminate].
    + rewrite andb_true_iff, N.eqb_eq, IH. split.
      * intros [-> [r ->]]. exists r. reflexivity.
      * intros [r H]. inversion H. split; [reflexivity | exists r; reflexivity].
Qed.

Lemma contains_spec (s p : str) : contains s p = true <-> occurs_in p s.
Proof.
  unfold occurs_in. induction s as [|c t IH]; simpl.
  - rewrite orb_false_r, startswith_spec. split.
    + intros [r H]. exists [], r. exact H.
    + intros [before [after H]]. destruct before; [|discriminate].
      exists after. exact H.
  - rewrite orb_true_iff, startswith_spec, IH. split.
    + intros [[r H] | [before [after H]]].
      * exists [], r. exact H.
      * exists (c :: before), after. simpl. f_equal. exact H.
    + intros [[|b before] [after H]].
      * left. exists after. exact H.
      * right. inversion H. exists before, after. reflexivity.
Qed.

Lemma any_in_spec (keywords : list str) (text : str) :
  any_in keywords text = true <-> matches keywords text.
Proof.
  unfold any_in, matches. rewrite existsb_exists.
  split; intros [k [Hk H]]; exists k; (split; [exact Hk|]);
    apply contains_spec; exact H.
Qed.

Lemma any_in_false (keywords : list str) (text : str) :
  any_in keywords text = false <-> ~ matches keywords text.
Proof.
  rewrite <- any_in_spec. destruct (any_in keywords text); split; congruence.
Qed.

(** *** lower *)

(** The lower-case form of a text ends with the lower-case form of each
    of its suffixes, read in its context. *)
Lemma lower_go_suffix (a b before : str) :
  exists x, lower_go before (a ++ b) = x ++ lower_go (before ++ a) b.
Proof.
  revert before; induction a as [|c a IH]; intros before; simpl.
  - exists []. rewrite app_nil_r. reflexivity.
  - destruct (IH (before ++ [c])) as [x Hx].
    exists (lower_char before c (a ++ b) ++ x).
    rewrite Hx, <- !app_assoc. reflexivity.
Qed.

Lemma lower_go_ascii_app (w rest before : str) :
  Forall (fun c => (c < 128)%N) w ->
  lower_go before (w ++ rest)
  = List.map ascii_lower w ++ lower_go (before ++ w) rest.
Proof.
  intros H; revert before; induction H as [|c w Hc _ IH]; intros before;
    simpl.
  - rewrite app_nil_r. reflexivity.
  - unfold lower_char. apply N.ltb_lt in Hc. rewrite Hc, IH.
    rewrite <- !app_assoc. reflexivity.
Qed.

Lemma lower_go_ascii (s before : str) :
  Forall (fun c => (c < 128)%N) s ->
  lower_go before s = List.map ascii_lower s.
Proof.
  intros H. rewrite <- (app_nil_r s) at 1.
  rewrite lower_go_ascii_app by exact H. simpl. apply app_nil_r.
Qed.

(** Lowering keeps a word written in any ASCII casing where it is, in
    lower case. *)
Lemma lower_casing (word w before after : str) :
  casing_of word w -> occurs_in word (lower (before ++ w ++ after)).
Proof.
  intros [Hascii Hmap]. unfold lower.
  destruct (lower_go_suffix before (w ++ after) []) as [x Hx].
  rewrite Hx, lower_go_ascii_app by exact Hascii.
  rewrite Hmap. eexists _, _. reflexivity.
Qed.

Lemma lower_of_casing (word w : str) : casing_of word w -> lower w = word.
Proof.
  intros [Hascii Hmap]. unfold lower.
  rewrite lower_go_ascii by exact Hascii. exact Hmap.
Qed.

(** *** The classifier and the scorer *)

Ltac lit_discr :=
  match goal with
  | H : lit _ = lit _ |- _ => vm_compute in H; discriminate H
  end.

Lemma transport_metro (text : str) :
  determine_transport_type text = lit "metro"
  <-> matches metro_keywords (lower text).
Proof.
  rewrite <- any_in_spec. unfold determine_transport_type. cbv zeta.
  destruct (any_in metro_keywords (lower text)); [tauto|].
  destruct (any_in train_keywords (lower text));
    [split; intros; [lit_discr | discriminate]|].
  destruct (any_in auto_keywords (lower text));
    [split; intros; [lit_discr | discriminate]|].
  destruct (any_in taxi_keywords (lower text));
    split; intros; try lit_discr; discriminate.
Qed.

Lemma transport_train (text : str) :
  determine_transport_type text = lit "train"
  <-> ~ matches metro_keywords (lower text)
      /\ matches train_keywords (lower text).
Proof.
  rewrite <- any_in_false, <- any_in_spec.
  unfold determine_transport_type. cbv zeta.
  destruct (any_in metro_keywords (lower text));
    [split; [intros; lit_discr | intros [? _]; discriminate]|].
  destruct (any_in train_keywords (lower text)); [tauto|].
  destruct (any_in auto_keywords (lower text));
    [split; [intros; lit_discr | intros [_ ?]; discriminate]|].
  destruct (any_in taxi_keywords (lower text));
    (split; [intros; lit_discr | intros [_ ?]; discriminate]).
Qed.

Lemma transport_auto (text : str) :
  determine_transport_type text = lit "auto"
  <-> ~ matches metro_keywords (lower text)
      /\ ~ matches train_keywords (lower text)
      /\ matches auto_keywords (lower text).
Proof.
  rewrite <- !any_in_false, <- any_in_spec.
  unfold determine_transport_type. cbv zeta.
  destruct (any_in metro_keywords (lower text));
    [split; [intros; lit_discr | intros [? _]; discriminate]|].
  destruct (any_in train_keywords (lower text));
    [split; [intros; lit_discr | intros [_ [? _]]; discriminate]|].
  destruct (any_in auto_keywords (lower text)); [tauto|].
  destruct (any_in taxi_keywords (lower text));
    (split; [intros; lit_discr | intros [_ [_ ?]]; discriminate]).
Qed.

Lemma transport_taxi (text : str) :
  determine_transport_type text = lit "taxi"
  <-> ~ matches metro_keywords (lower text)
      /\ ~ matches train_keywords (lower text)
      /\ ~ matches auto_keywords (lower text)
      /\ matches taxi_keywords (lower text).
Proof.
  rewrite <- !any_in_false, <- any_in_spec.
  unfold determine_transport_type. cbv zeta.
  destruct (any_in metro_keywords (lower text));
    [split; [intros; lit_discr | intros [? _]; discriminate]|].
  destruct (any_in train_keywords (lower text));
    [split; [intros; lit_discr | intros [_ [? _]]; discriminate]|].
  destruct (any_in auto_keywords (lower text));
    [split; [intros; lit_discr | intros [_ [_ [? _]]]; discriminate]|].
  destruct (any_in taxi_keywords (lower text)); [tauto|].
  split; [intros; lit_discr | intros [_ [_ [_ ?]]]; discriminate].
Qed.

Lemma transport_bus (text : str) :
  determine_transport_type text = lit "bus"
  <-> ~ matches metro_keywords (lower text)
      /\ ~ matches train_keywords (lower text)
      /\ ~ matches auto_keywords (lower text)
      /\ ~ matches taxi_keywords (lower text).
Proof.
  rewrite <- !any_in_false.
  unfold determine_transport_type. cbv zeta.
  destruct (any_in metro_keywords (lower text));
    [split; [intros; lit_discr | intros [? _]; discriminate]|].
  destruct (any_in train_keywords (lower text));
    [split; [intros; lit_discr | intros [_ [? _]]; discriminate]|].
  destruct (any_in auto_keywords (lower text));
    [split; [intros; lit_discr | intros [_ [_ [? _]]]; discriminate]|].
  destruct (any_in taxi_keywords (lower text));
    [split; [intros; lit_discr | intros [_ [_ [_ ?]]]; discriminate]|].
  tauto.
Qed.

Lemma transport_range (text : str) :
  In (determine_transport_type text) transport_types.
Proof.
  unfold determine_transport_type, transport_types. cbv zeta.
  destruct (any_in metro_keywords (lower text)); [simpl; tauto|].
  destruct (any_in train_keywords (lower text)); [simpl; tauto|].
  destruct (any_in auto_keywords (lower text)); [simpl; tauto|].
  destruct (any_in taxi_keywords (lower text)); simpl; tauto.
Qed.

Lemma score_of_lower (label : str) :
  determine_sentiment_score label
  = if str_eqb (lower label) (lit "positive") then 0.5%Q
    else if str_eqb (lower label) (lit "negative") then (-0.5)%Q
    else 0%Q.
Proof.
  unfold determine_sentiment_score, sentiment_scores. simpl lookup.
  destruct (str_eqb (lower label) (lit "positive")); [reflexivity|].
  destruct (str_eqb (lower label) (lit "negative")); [reflexivity|].
  destruct (str_eqb (lower label) (lit "neutral")); reflexivity.
Qed.

(** *** Keys in the order of their first appearance *)

Lemma mem_In (k : str) (l : list str) : mem k l = true <-> In k l.
Proof.
  unfold mem. rewrite existsb_exists. split.
  - intros [x [Hx E]]. apply str_eqb_eq in E. subst; exact Hx.
  - intros H. exists k. split; [exact H | apply str_eqb_refl].
Qed.

Lemma mem_false (k : str) (l : list str) : mem k l = false <-> ~ In k l.
Proof.
  rewrite <- mem_In. destruct (mem k l); split; congruence.
Qed.

Lemma mem_cons (k x : str) (l : list str) :
  mem k (x :: l) = str_eqb k x || mem k l.
Proof. reflexivity. Qed.

Lemma first_seen_In (k : str) (l : list str) :
  In k (first_seen l) <-> In k l.
Proof.
  induction l as [|x l IH]; simpl; [tauto|].
  rewrite filter_In, IH, negb_true_iff, str_eqb_neq.
  destruct (list_eq_dec N.eq_dec x k) as [E|E].
  - tauto.
  - split; [tauto|]. intros [H|H]; [tauto|].
    right. split; [exact H | congruence].
Qed.

Lemma first_seen_NoDup (l : list str) : NoDup (first_seen l).
Proof.
  induction l as [|x l IH]; simpl; constructor.
  - rewrite filter_In, negb_true_iff, str_eqb_neq. intros [_ H].
    apply H; reflexivity.
  - apply NoDup_filter. exact IH.
Qed.

Lemma first_seen_snoc (l : list str) (k : str) :
  first_seen (l ++ [k])
  = if mem k l then first_seen l else first_seen l ++ [k].
Proof.
  induction l as [|x l IH]; [reflexivity|].
  cbn [app first_seen]. rewrite IH, mem_cons.
  destruct (str_eqb k x) eqn:E; cbn [orb].
  - apply str_eqb_eq in E. subst x.
    destruct (mem k l); [reflexivity|].
    rewrite filter_app. cbn [List.filter]. rewrite str_eqb_refl.
    cbn [negb]. rewrite app_nil_r. reflexivity.
  - destruct (mem k l); [reflexivity|].
    rewrite filter_app. cbn [List.filter]. rewrite E. reflexivity.
Qed.

Lemma filter_filter {A : Type} (p q : A -> bool) (l : list A) :
  List.filter p (List.filter q l) = List.filter (fun x => q x && p x) l.
Proof.
  induction l as [|x l IH]; simpl; [reflexivity|].
  destruct (q x); simpl; [destruct (p x)|]; rewrite IH; reflexivity.
Qed.

(** The keys met in [a] come first, then those met in [b] only. *)
Lemma first_seen_app (a b : list str) :
  first_seen (a ++ b)
  = first_seen a ++ List.filter (fun x => negb (mem x a)) (first_seen b).
Proof.
  induction a as [|x a IH]; cbn [app first_seen].
  - symmetry. apply forallb_filter_id. apply forallb_forall. reflexivity.
  - rewrite IH, filter_app, filter_filter. f_equal. f_equal.
    apply filter_ext. intros y. rewrite mem_cons, negb_orb.
    apply andb_comm.
Qed.

(** *** The dicts of the aggregation *)

Lemma dict_add_map (c : str -> Z) (ks : list str) (k : str) (n : Z) :
  NoDup ks -> In k ks ->
  dict_add k n (List.map (fun t => (t, c t)) ks)
  = Ok (List.map (fun t => (t, if str_eqb t k then (c t + n)%Z else c t)) ks).
Proof.
  induction ks as [|x ks IH]; intros Hnd Hin; [contradiction|].
  inversion Hnd as [|? ? Hx Hks]; subst. simpl.
  destruct (str_eqb k x) eqn:E.
  - apply str_eqb_eq in E. subst x. rewrite str_eqb_refl.
    do 2 f_equal. apply map_ext_in. intros t Ht.
    destruct (str_eqb t k) eqn:Et; [|reflexivity].
    apply str_eqb_eq in Et. subst t. contradiction.
  - destruct Hin as [Hin|Hin];
      [subst x; rewrite str_eqb_refl in E; discriminate|].
    rewrite IH by assumption. simpl.
    rewrite str_eqb_sym, E. reflexivity.
Qed.

Lemma update_bucket_map (B : str -> Bucket) (ks : list str) (state : str)
  (f : Bucket -> result Bucket) (b' : Bucket) :
  NoDup ks ->
  (mem state ks = false -> B state = default_bucket) ->
  f (B state) = Ok b' ->
  update_bucket state f (List.map (fun k => (k, B k)) ks)
  = Ok (List.map (fun k => (k, if str_eqb k state then b' else B k))
          (if mem state ks then ks else ks ++ [state])).
Proof.
  intros Hnd Hnew Hf. induction ks as [|x ks IH].
  - simpl. rewrite <- Hnew by reflexivity. rewrite Hf. simpl.
    rewrite str_eqb_refl. reflexivity.
  - inversion Hnd as [|? ? Hx Hks]; subst.
    rewrite mem_cons in *. simpl update_bucket.
    destruct (str_eqb state x) eqn:E.
    + apply str_eqb_eq in E. subst x. rewrite Hf. simpl.
      rewrite str_eqb_refl. do 2 f_equal. apply map_ext_in. intros t Ht.
      destruct (str_eqb t state) eqn:Et; [|reflexivity].
      apply str_eqb_eq in Et. subst t. contradiction.
    + cbn [orb] in *. rewrite IH by assumption. cbn [bind].
      destruct (mem state ks); cbn [List.map app];
        rewrite (str_eqb_sym x state), E; reflexivity.
Qed.

Lemma update_bucket_present (B : str -> Bucket) (ks : list str)
  (state : str) (f : Bucket -> result Bucket) (b' : Bucket) :
  NoDup ks -> mem state ks = true -> f (B state) = Ok b' ->
  update_bucket state f (List.map (fun k => (k, B k)) ks)
  = Ok (List.map (fun k => (k, if str_eqb k state then b' else B k)) ks).
Proof.
  intros Hnd Hin Hf.
  rewrite (update_bucket_map B ks state f b') by
    (try assumption; rewrite Hin; discriminate).
  rewrite Hin. reflexivity.
Qed.

Lemma NoDup_add_key (ks : list str) (k : str) :
  NoDup ks -> NoDup (if mem k ks then ks else ks ++ [k]).
Proof.
  intros H. destruct (mem k ks) eqn:E; [exact H|].
  apply mem_false in E. apply NoDup_app; [exact H | repeat constructor; intros [] |].
  intros x Hx [Hk|[]]. subst. contradiction.
Qed.

Lemma mem_add_key (ks : list str) (k : str) :
  mem k (if mem k ks then ks else ks ++ [k]) = true.
Proof.
  destruct (mem k ks) eqn:E; [exact E|].
  apply mem_In, in_or_app. right. left. reflexivity.
Qed.

Lemma mem_first_seen (k : str) (l : list str) :
  mem k (first_seen l) = mem k l.
Proof.
  destruct (mem k l) eqn:E.
  - apply mem_In, first_seen_In, mem_In. exact E.
  - apply mem_false. rewrite first_seen_In. apply mem_false. exact E.
Qed.

(** One update of the bucket of [state], which is added when it is new. *)
Lemma update_bucket_step (B B' : str -> Bucket) (l : list str)
  (state : str) (f : Bucket -> result Bucket) :
  (~ In state l -> B state = default_bucket) ->
  f (B state) = Ok (B' state) ->
  (forall k, k <> state -> B' k = B k) ->
  update_bucket state f (List.map (fun k => (k, B k)) (first_seen l))
  = Ok (List.map (fun k => (k, B' k)) (first_seen (l ++ [state]))).
Proof.
  intros Hnew Hf Hother.
  rewrite (update_bucket_map B (first_seen l) state f (B' state)).
  - rewrite first_seen_snoc, mem_first_seen. f_equal.
    apply map_ext. intros k. destruct (str_eqb k state) eqn:E.
    + apply str_eqb_eq in E. subst; reflexivity.
    + apply str_eqb_neq in E. rewrite Hother by exact E. reflexivity.
  - apply first_seen_NoDup.
  - rewrite mem_first_seen. intros E. apply Hnew, mem_false, E.
  - exact Hf.
Qed.

(** One update of a bucket that is there. *)
Lemma update_bucket_there (B B' : str -> Bucket) (l : list str)
  (state : str) (f : Bucket -> result Bucket) :
  In state l ->
  f (B state) = Ok (B' state) ->
  (forall k, k <> state -> B' k = B k) ->
  update_bucket state f (List.map (fun k => (k, B k)) (first_seen l))
  = Ok (List.map (fun k => (k, B' k)) (first_seen l)).
Proof.
  intros Hin Hf Hother.
  rewrite (update_bucket_present B (first_seen l) state f (B' state)).
  - f_equal. apply map_ext. intros k. destruct (str_eqb k state) eqn:E.
    + apply str_eqb_eq in E. subst; reflexivity.
    + apply str_eqb_neq in E. rewrite Hother by exact E. reflexivity.
  - apply first_seen_NoDup.
  - rewrite mem_first_seen. apply mem_In. exact Hin.
  - exact Hf.
Qed.

Lemma accumulated_app (field : SummaryRow -> option Z) (state : str)
  (a b : list SummaryRow) :
  accumulated field state (a ++ b)
  = (accumulated field state a + accumulated field state b)%Z.
Proof.
  induction a as [|row a IH]; cbn [app accumulated]; [reflexivity|].
  rewrite IH. lia.
Qed.

Lemma tweet_count_app (transport state : str) (a b : list RawRecord) :
  tweet_count transport state (a ++ b)
  = (tweet_count transport state a + tweet_count transport state b)%Z.
Proof.
  induction a as [|tweet a IH]; cbn [app tweet_count]; [reflexivity|].
  rewrite IH. lia.
Qed.

Lemma accumulated_unseen (field : SummaryRow -> option Z) (state : str)
  (rows : list SummaryRow) :
  ~ In state (List.map row_state rows) -> accumulated field state rows = 0%Z.
Proof.
  induction rows as [|row rows IH]; cbn [List.map accumulated];
    intros H; [reflexivity|].
  rewrite IH by (intros Hin; apply H; right; exact Hin).
  destruct (str_eqb (row_state row) state) eqn:E; [|reflexivity].
  apply str_eqb_eq in E. exfalso. apply H. left. exact E.
Qed.

Lemma tweet_count_unseen (transport state : str) (tweets : list RawRecord) :
  ~ In state (List.map tweet_state tweets) ->
  tweet_count transport state tweets = 0%Z.
Proof.
  induction tweets as [|tweet tweets IH]; cbn [List.map tweet_count];
    intros H; [reflexivity|].
  rewrite IH by (intros Hin; apply H; right; exact Hin).
  destruct (str_eqb (tweet_state tweet) state) eqn:E; [|reflexivity].
  apply str_eqb_eq in E. exfalso. apply H. left. exact E.
Qed.

Lemma bucket_unseen (tweets : list RawRecord) (rows : list SummaryRow)
  (state : str) :
  ~ In state (List.map tweet_state tweets ++ List.map row_state rows) ->
  bucket_of tweets rows state = default_bucket.
Proof.
  intros H. unfold bucket_of.
  rewrite !accumulated_unseen
    by (intros Hin; apply H, in_or_app; right; exact Hin).
  rewrite (map_ext _ (fun transport => (transport, 0%Z))).
  - reflexivity.
  - intros transport. rewrite tweet_count_unseen; [reflexivity|].
    intros Hin; apply H, in_or_app; left; exact Hin.
Qed.

Lemma transport_types_NoDup : NoDup transport_types.
Proof.
  unfold transport_types.
  repeat (constructor;
          [cbn [In]; intros H;
           repeat (destruct H as [H|H]; [vm_compute in H; discriminate H|]);
           exact H|]).
  constructor.
Qed.

(** *** The two loops of [/api/states] *)

Lemma incr_transport_bucket (tweets : list RawRecord) (tweet : RawRecord) :
  incr_transport (determine_transport_type (get (r_text tweet) (lit "")))
    (bucket_of tweets [] (tweet_state tweet))
  = Ok (bucket_of (tweets ++ [tweet]) [] (tweet_state tweet)).
Proof.
  unfold incr_transport, bucket_of. cbn [transport_breakdown].
  rewrite dict_add_map
    by (apply transport_types_NoDup || apply transport_range).
  cbn [bind total_messages positive_count negative_count neutral_count].
  do 2 f_equal. apply map_ext. intros transport. f_equal.
  rewrite tweet_count_app. cbn [tweet_count].
  rewrite str_eqb_refl, (str_eqb_sym transport). cbn [andb].
  destruct (str_eqb _ transport); lia.
Qed.

Lemma count_tweet_step (done : list RawRecord) (tweet : RawRecord) :
  count_tweet (state_data_of done []) tweet
  = Ok (state_data_of (done ++ [tweet]) []).
Proof.
  unfold count_tweet. rewrite extract_state_of_region. cbn [bind].
  fold (tweet_state tweet). unfold state_data_of, states_met.
  rewrite map_app. cbn [List.map]. rewrite !app_nil_r.
  apply update_bucket_step.
  - intros H. apply bucket_unseen. cbn [List.map]. rewrite app_nil_r.
    exact H.
  - apply incr_transport_bucket.
  - intros k Hk. unfold bucket_of. f_equal.
    apply map_ext. intros transport. f_equal.
    rewrite tweet_count_app. cbn [tweet_count].
    apply not_eq_sym, str_eqb_neq in Hk. rewrite Hk. cbn [andb]. lia.
Qed.

Lemma count_tweets (rest done : list RawRecord) :
  for_each count_tweet rest (state_data_of done [])
  = Ok (state_data_of (done ++ rest) []).
Proof.
  revert done; induction rest as [|tweet rest IH]; intros done;
    cbn [for_each].
  - rewrite app_nil_r. reflexivity.
  - rewrite count_tweet_step. cbn [bind]. rewrite IH, <- app_assoc.
    reflexivity.
Qed.

Lemma add_row_step (tweets : list RawRecord) (done : list SummaryRow)
  (row : SummaryRow) :
  add_row (state_data_of tweets done) row
  = Ok (state_data_of tweets (done ++ [row])).
Proof.
  unfold add_row. rewrite extract_state_of_region. cbn [bind].
  fold (row_state row). unfold state_data_of, states_met.
  rewrite (map_app row_state), app_assoc. cbn [List.map].
  set (l := List.map tweet_state tweets ++ List.map row_state done).
  set (state := row_state row).
  set (b0 := bucket_of tweets done state).
  pose (b1 := {| total_messages :=
                   (total_messages b0 + get (s_total_messages row) 0)%Z;
                 positive_count := positive_count b0;
                 negative_count := negative_count b0;
                 neutral_count := neutral_count b0;
                 transport_breakdown := transport_breakdown b0 |}).
  pose (b2 := {| total_messages := total_messages b1;
                 positive_count :=
                   (positive_count b1 + get (s_positive_count row) 0)%Z;
                 negative_count := negative_count b1;
                 neutral_count := neutral_count b1;
                 transport_breakdown := transport_breakdown b1 |}).
  pose (b3 := {| total_messages := total_messages b2;
                 positive_count := positive_count b2;
                 negative_count :=
                   (negative_count b2 + get (s_negative_count row) 0)%Z;
                 neutral_count := neutral_count b2;
                 transport_breakdown := transport_breakdown b2 |}).
  pose (B := fun (b : Bucket) (k : str) =>
               if str_eqb k state then b else bucket_of tweets done k).
  assert (Hin : In state (l ++ [state]))
    by (apply in_or_app; right; left; reflexivity).
  assert (Hrefl : forall b, B b state = b)
    by (intros b; unfold B; rewrite str_eqb_refl; reflexivity).
  assert (Hother : forall b b' k, k <> state -> B b' k = B b k).
  { intros b b' k Hk. unfold B. apply str_eqb_neq in Hk. rewrite Hk.
    reflexivity. }
  rewrite (update_bucket_step (bucket_of tweets done) (B b1) l state).
  2:{ intros H. apply bucket_unseen. exact H. }
  2:{ rewrite Hrefl. reflexivity. }
  2:{ intros k Hk. unfold B. apply str_eqb_neq in Hk. rewrite Hk.
      reflexivity. }
  cbn [bind].
  rewrite (update_bucket_there (B b1) (B b2) (l ++ [state]) state);
    [| exact Hin | rewrite !Hrefl; reflexivity | apply Hother].
  cbn [bind].
  rewrite (update_bucket_there (B b2) (B b3) (l ++ [state]) state);
    [| exact Hin | rewrite !Hrefl; reflexivity | apply Hother].
  cbn [bind].
  apply update_bucket_there; [exact Hin | |].
  - rewrite Hrefl. unfold add_neutral, bucket_of. f_equal.
    rewrite !accumulated_app. cbn [accumulated]. fold state.
    rewrite str_eqb_refl.
    subst b3 b2 b1 b0. unfold bucket_of.
    cbn [total_messages positive_count negative_count neutral_count
         transport_breakdown].
    f_equal; lia.
  - intros k Hk. unfold B. pose proof Hk as Hk'.
    apply str_eqb_neq in Hk'. rewrite Hk'.
    unfold bucket_of. rewrite !accumulated_app. cbn [accumulated].
    fold state. apply not_eq_sym, str_eqb_neq in Hk. rewrite Hk.
    f_equal; lia.
Qed.

Lemma add_rows (tweets : list RawRecord) (rest done : list SummaryRow) :
  for_each add_row rest (state_data_of tweets done)
  = Ok (state_data_of tweets (done ++ rest)).
Proof.
  revert done; induction rest as [|row rest IH]; intros done;
    cbn [for_each].
  - rewrite app_nil_r. reflexivity.
  - rewrite add_row_step. cbn [bind]. rewrite IH, <- app_assoc.
    reflexivity.
Qed.

Lemma reports_map (B : str -> Bucket) (ks : list str) :
  reports (List.map (fun k => (k, B k)) ks)
  = List.map (fun k => report k (B k))
      (List.filter (fun k => (0 <? total_messages (B k))%Z) ks).
Proof.
  induction ks as [|k ks IH]; cbn [List.map reports List.filter];
    [reflexivity|].
  destruct (0 <? total_messages (B k))%Z; cbn [List.map]; rewrite IH;
    reflexivity.
Qed.

Lemma states_summary_ok (rows : list SummaryRow) (tweets : list RawRecord) :
  states_summary rows tweets = Ok (reports_of tweets rows).
Proof.
  unfold states_summary.
  change (@nil (str * Bucket)) with (state_data_of [] []).
  rewrite count_tweets. cbn [bind app].
  rewrite add_rows. cbn [bind app].
  unfold state_data_of. rewrite reports_map. reflexivity.
Qed.

(** *** The reports *)

Lemma report_states (tweets : list RawRecord) (rows : list SummaryRow) :
  List.map state (reports_of tweets rows)
  = List.filter
      (fun state => (0 <? accumulated s_total_messages state rows)%Z)
      (states_met tweets rows).
Proof.
  unfold reports_of. rewrite map_map. cbn [state report]. apply map_id.
Qed.

Lemma reported_state (tweets : list RawRecord) (rows : list SummaryRow)
  (s : str) :
  In s (List.map state (reports_of tweets rows))
  <-> In s (List.map tweet_state tweets ++ List.map row_state rows)
      /\ (0 < accumulated s_total_messages s rows)%Z.
Proof.
  rewrite report_states, filter_In. unfold states_met.
  rewrite first_seen_In, Z.ltb_lt. reflexivity.
Qed.

Lemma reports_of_Forall (P : StateReport -> Prop)
  (tweets : list RawRecord) (rows : list SummaryRow) :
  (forall s, (0 < accumulated s_total_messages s rows)%Z ->
             P (report s (bucket_of tweets rows s))) ->
  Forall P (reports_of tweets rows).
Proof.
  intros H. unfold reports_of. apply Forall_forall. intros r Hr.
  apply in_map_iff in Hr. destruct Hr as [s [<- Hs]].
  apply filter_In in Hs. destruct Hs as [_ Hs]. apply Z.ltb_lt in Hs.
  apply H. exact Hs.
Qed.

Lemma quotient_bounds (d t : Z) :
  (0 < t)%Z -> (- t <= d <= t)%Z ->
  (-1 <= inject_Z d / inject_Z t)%Q /\ (inject_Z d / inject_Z t <= 1)%Q.
Proof.
  intros Ht Hd.
  assert (Hpos : (0 < inject_Z t)%Q).
  { unfold Qlt, inject_Z. cbn. lia. }
  split.
  - apply Qle_shift_div_l; [exact Hpos|].
    unfold Qle, Qmult, inject_Z. cbn [Qnum Qden]. lia.
  - apply Qle_shift_div_r; [exact Hpos|].
    unfold Qle, Qmult, inject_Z. cbn [Qnum Qden]. lia.
Qed.

Lemma consistent_accumulated (rows : list SummaryRow) (s : str) :
  Forall consistent rows ->
  (0 <= accumulated s_positive_count s rows
   /\ 0 <= accumulated s_negative_count s rows
   /\ accumulated s_positive_count s rows
      + accumulated s_negative_count s rows
      <= accumulated s_total_messages s rows)%Z.
Proof.
  induction 1 as [|row rows Hrow _ IH]; cbn [accumulated]; [lia|].
  destruct Hrow as [Hp [Hn Ht]].
  destruct (str_eqb (row_state row) s); lia.
Qed.

Lemma filter_precedes (p : str -> bool) (a b : list str) (s1 s2 : str) :
  let l := List.filter p (first_seen (a ++ b)) in
  In s1 a -> ~ In s2 a -> In s1 l -> In s2 l -> precedes s1 s2 l.
Proof.
  cbv zeta. rewrite first_seen_app, filter_app.
  intros H1 H2 Hs1 Hs2.
  apply in_app_or in Hs1. apply in_app_or in Hs2.
  destruct Hs1 as [Hs1|Hs1].
  2:{ exfalso. apply filter_In in Hs1. destruct Hs1 as [Hs1 _].
      apply filter_In in Hs1. destruct Hs1 as [_ Hs1].
      apply negb_true_iff, mem_false in Hs1. exact (Hs1 H1). }
  destruct Hs2 as [Hs2|Hs2].
  { exfalso. apply filter_In in Hs2. destruct Hs2 as [Hs2 _].
    rewrite first_seen_In in Hs2. exact (H2 Hs2). }
  apply in_split in Hs1. destruct Hs1 as [l1 [l2 E1]].
  apply in_split in Hs2. destruct Hs2 as [l3 [l4 E2]].
  exists l1, (l2 ++ l3), l4. rewrite E1, E2.
  repeat (rewrite <- app_assoc; cbn [app]). reflexivity.
Qed.

Lemma for_each_map {S X : Type} (body : S -> X -> result S) (g : X -> X)
  (l : list X) (acc : S) :
  (forall s x, body s (g x) = body s x) ->
  for_each body (List.map g l) acc = for_each body l acc.
Proof.
  intros H. revert acc; induction l as [|x l IH]; intros acc;
    cbn [List.map for_each]; [reflexivity|].
  rewrite H. destruct (body acc x); cbn [bind]; [apply IH | reflexivity].
Qed.

Lemma states_summary_fill (rows : list SummaryRow)
  (tweets : list RawRecord) :
  states_summary (List.map fill_row rows) (List.map fill_tweet tweets)
  = states_summary rows tweets.
Proof.
  unfold states_summary.
  rewrite (for_each_map count_tweet fill_tweet) by reflexivity.
  destruct (for_each count_tweet tweets []); cbn [bind]; [|reflexivity].
  rewrite (for_each_map add_row fill_row) by reflexivity.
  reflexivity.
Qed.

(** ** The claims *)

(** C4.  [extract_state_from_region] never raises.  On a region that holds
    a comma it returns, trimmed, what follows the last comma; on a region
    without a comma it returns the trimmed region.  So
    "Mumbai, Maharashtra" gives "Maharashtra", "Delhi" gives "Delhi",
    "A, B, C" gives "C" and the empty string gives the empty string. *)
Theorem extract_state_last_comma :
  (forall region, exists state, extract_state_from_region region = Ok state)
  /\ (forall a b,
         ~ In comma b ->
         extract_state_from_region (a ++ comma :: b) = Ok (strip b))
  /\ (forall region,
         ~ In comma region ->
         extract_state_from_region region = Ok (strip region))
  /\ extract_state_from_region (lit "Mumbai, Maharashtra")
     = Ok (lit "Maharashtra")
  /\ extract_state_from_region (lit "Delhi") = Ok (lit "Delhi")
  /\ extract_state_from_region (lit "A, B, C") = Ok (lit "C")
  /\ extract_state_from_region (lit "") = Ok (lit "").
Proof.
  split; [|split; [|split]].
  - intros region. eexists. apply extract_state_of_region.
  - intros a b Hb. rewrite extract_state_of_region. unfold state_of_region.
    rewrite after_last_app by exact Hb. reflexivity.
  - intros region H. rewrite extract_state_of_region.
    unfold state_of_region. rewrite after_last_no_sep by exact H.
    reflexivity.
  - repeat split; reflexivity.
Qed.

(** C3.  [/api/tweets] cuts the region at its first comma: the city is
    the trimmed part before it and the state the trimmed rest, so
    "Mumbai, Maharashtra, India" gives the city "Mumbai" and the state
    "Maharashtra, India"; a region without a comma is, trimmed, both the
    city and the state.  [extract_state_from_region] cuts the same region
    at its last comma and gives "India". *)
Theorem enrich_first_comma :
  (forall now row a b,
      get (r_region row) (lit "India") = a ++ comma :: b ->
      ~ In comma a ->
      exists tweet,
        enrich now row = Ok tweet
        /\ tw_city tweet = strip a /\ tw_state tweet = strip b)
  /\ (forall now row,
         ~ In comma (get (r_region row) (lit "India")) ->
         exists tweet,
           enrich now row = Ok tweet
           /\ tw_city tweet = strip (get (r_region row) (lit "India"))
           /\ tw_state tweet = strip (get (r_region row) (lit "India")))
  /\ (forall now row,
         r_region row = Some (lit "Mumbai, Maharashtra, India") ->
         exists tweet,
           enrich now row = Ok tweet
           /\ tw_city tweet = lit "Mumbai"
           /\ tw_state tweet = lit "Maharashtra, India")
  /\ extract_state_from_region (lit "Mumbai, Maharashtra, India")
     = Ok (lit "India").
Proof.
  split; [|split; [|split]].
  - intros now row a b Hregion Ha. eexists. split; [apply enrich_ok|].
    cbv zeta. cbn [tw_city tw_state]. unfold shown_city, shown_state.
    rewrite Hregion.
    assert (Hc : has_char comma (a ++ comma :: b) = true).
    { apply has_char_In, in_or_app. right. left. reflexivity. }
    rewrite Hc, before_first_app, after_first_app by exact Ha.
    split; reflexivity.
  - intros now row H. eexists. split; [apply enrich_ok|].
    cbv zeta. cbn [tw_city tw_state]. unfold shown_city, shown_state.
    rewrite before_first_no_sep by exact H.
    apply has_char_false in H. rewrite H. split; reflexivity.
  - intros now row H. eexists. split; [apply enrich_ok|].
    cbv zeta. cbn [tw_city tw_state]. rewrite H. cbn [get].
    split; reflexivity.
  - reflexivity.
Qed.

(** C7.  [/api/tweets] never raises.  A row without text is read as the
    empty text, without region as "India", without sentiment label as
    "neutral" and without timestamp as the current time; the transport
    type and the polarity are those of the text and of the label so read,
    and the confidence is 0.85. *)
Theorem enrich_never_fails :
  (forall now row, exists tweet,
      enrich now row = Ok tweet
      /\ tw_text tweet = get (r_text row) (lit "")
      /\ tw_location tweet = get (r_region row) (lit "India")
      /\ label (tw_sentiment tweet) = get (r_sentiment row) (lit "neutral")
      /\ tw_timestamp tweet = isoformat (get (r_created_at row) now)
      /\ tw_transportType tweet = determine_transport_type (tw_text tweet)
      /\ polarity (tw_sentiment tweet)
         = determine_sentiment_score (label (tw_sentiment tweet))
      /\ confidence (tw_sentiment tweet) = 0.85%Q)
  /\ (forall now id, exists tweet,
         enrich now {| r_id := id; r_text := None; r_region := None;
                       r_sentiment := None; r_created_at := None |}
         = Ok tweet
         /\ tw_text tweet = lit ""
         /\ tw_location tweet = lit "India"
         /\ tw_city tweet = lit "India"
         /\ tw_state tweet = lit "India"
         /\ label (tw_sentiment tweet) = lit "neutral"
         /\ polarity (tw_sentiment tweet) = 0%Q
         /\ tw_transportType tweet = lit "bus"
         /\ tw_timestamp tweet = isoformat now)
  /\ (forall clock rows, exists body,
         get_tweets clock rows = Json200 body
         /\ List.length body = List.length rows).
Proof.
  split; [|split].
  - intros now row. eexists. split; [apply enrich_ok|].
    cbv zeta. repeat split; reflexivity.
  - intros now id. eexists. split; [apply enrich_ok|].
    cbv zeta. repeat split; reflexivity.
  - intros clock rows. unfold get_tweets.
    destruct (enrich_all_ok clock rows 0) as [tweets [-> Hlen]].
    exists tweets. split; [reflexivity | exact Hlen].
Qed.

(** C5.  [determine_transport_type] returns one of the five transport
    types for every text.  It lowers the text and returns the first of
    metro, train, auto and taxi one of whose keywords occurs in the lowered
    text, and "bus" when there is none.  A word in any casing of its
    letters occurs, in lower case, in the lowered text; so a text that
    holds "metro" in any casing is a metro text.  The empty text is a bus
    text.  Two texts with the same lower-case form have the same type, and
    a keyword inside a longer word counts: "Cabin crew" is a taxi text. *)
Theorem classify_transport :
  (forall text, In (determine_transport_type text) transport_types)
  /\ (forall text,
         (determine_transport_type text = lit "metro"
          <-> matches metro_keywords (lower text))
         /\ (determine_transport_type text = lit "train"
             <-> ~ matches metro_keywords (lower text)
                 /\ matches train_keywords (lower text))
         /\ (determine_transport_type text = lit "auto"
             <-> ~ matches metro_keywords (lower text)
                 /\ ~ matches train_keywords (lower text)
                 /\ matches auto_keywords (lower text))
         /\ (determine_transport_type text = lit "taxi"
             <-> ~ matches metro_keywords (lower text)
                 /\ ~ matches train_keywords (lower text)
                 /\ ~ matches auto_keywords (lower text)
                 /\ matches taxi_keywords (lower text))
         /\ (determine_transport_type text = lit "bus"
             <-> ~ matches metro_keywords (lower text)
                 /\ ~ matches train_keywords (lower text)
                 /\ ~ matches auto_keywords (lower text)
                 /\ ~ matches taxi_keywords (lower text)))
  /\ (forall word w before after,
         casing_of word w ->
         occurs_in word (lower (before ++ w ++ after)))
  /\ (forall w before after,
         casing_of (lit "metro") w ->
         determine_transport_type (before ++ w ++ after) = lit "metro")
  /\ determine_transport_type (lit "") = lit "bus"
  /\ (forall text text',
         lower text = lower text' ->
         determine_transport_type text = determine_transport_type text')
  /\ determine_transport_type (lit "Cabin crew") = lit "taxi".
Proof.
  split; [|split; [|split; [|split; [|split; [|split]]]]].
  - apply transport_range.
  - intros text. split; [apply transport_metro|].
    split; [apply transport_train|]. split; [apply transport_auto|].
    split; [apply transport_taxi | apply transport_bus].
  - intros word w before after. apply lower_casing.
  - intros w before after H. apply transport_metro.
    exists (lit "metro"). split; [left; reflexivity|].
    apply lower_casing. exact H.
  - reflexivity.
  - intros text text' H. unfold determine_transport_type. rewrite H.
    reflexivity.
  - reflexivity.
Qed.

(** C8.  [determine_sentiment_score] returns 0.5, -0.5 or 0 for every
    label: 0.5 for "positive", -0.5 for "negative" and 0 for "neutral" in
    any casing of their letters, and 0 for a label whose lower-case form
    is none of the three.  So "Positive" gives 0.5 and "unknown" gives
    0. *)
Theorem score_sentiment :
  (forall label,
      In (determine_sentiment_score label) [0.5%Q; (-0.5)%Q; 0%Q])
  /\ (forall label,
         casing_of (lit "positive") label ->
         determine_sentiment_score label = 0.5%Q)
  /\ (forall label,
         casing_of (lit "negative") label ->
         determine_sentiment_score label = (-0.5)%Q)
  /\ (forall label,
         casing_of (lit "neutral") label ->
         determine_sentiment_score label = 0%Q)
  /\ (forall label,
         lower label <> lit "positive" ->
         lower label <> lit "negative" ->
         lower label <> lit "neutral" ->
         determine_sentiment_score label = 0%Q)
  /\ determine_sentiment_score (lit "Positive") = 0.5%Q
  /\ determine_sentiment_score (lit "unknown") = 0%Q.
Proof.
  split; [|split; [|split; [|split; [|split]]]].
  - intros label. rewrite score_of_lower.
    destruct (str_eqb (lower label) (lit "positive")); [left; reflexivity|].
    destruct (str_eqb (lower label) (lit "negative"));
      [right; left; reflexivity | right; right; left; reflexivity].
  - intros label H. rewrite score_of_lower, (lower_of_casing _ _ H).
    reflexivity.
  - intros label H. rewrite score_of_lower, (lower_of_casing _ _ H).
    reflexivity.
  - intros label H. rewrite score_of_lower, (lower_of_casing _ _ H).
    reflexivity.
  - intros label Hp Hn _. rewrite score_of_lower.
    apply str_eqb_neq in Hp, Hn. rewrite Hp, Hn. reflexivity.
  - split; reflexivity.
Qed.

(** C1.  [/api/states] returns a list of reports.  Every report is that
    of a state whose accumulated [total_messages] is positive, and its
    score is the accumulated [positive_count] minus the accumulated
    [negative_count], divided by the accumulated [total_messages].  A
    state is reported exactly when it was met and its accumulated total is
    positive, and then once; so a state whose accumulated total is zero is
    not reported. *)
Theorem states_score_formula (rows : list SummaryRow)
  (tweets : list RawRecord) :
  exists out,
    get_states_summary rows tweets = Json200 out
    /\ Forall
         (fun r =>
            (0 < accumulated s_total_messages (state r) rows)%Z
            /\ sentimentScore r
               = (inject_Z (accumulated s_positive_count (state r) rows
                            - accumulated s_negative_count (state r) rows)
                  / inject_Z (accumulated s_total_messages (state r) rows))%Q
            /\ totalMessages r
               = accumulated s_total_messages (state r) rows)
         out
    /\ (forall s,
           In s (List.map state out)
           <-> In s (List.map tweet_state tweets ++ List.map row_state rows)
               /\ (0 < accumulated s_total_messages s rows)%Z)
    /\ (forall s,
           accumulated s_total_messages s rows = 0%Z ->
           ~ In s (List.map state out))
    /\ NoDup (List.map state out).
Proof.
  exists (reports_of tweets rows). unfold get_states_summary.
  rewrite states_summary_ok. split; [reflexivity|].
  split; [|split; [|split]].
  - apply reports_of_Forall. intros s Hs. cbn [state report].
    repeat split. exact Hs.
  - apply reported_state.
  - intros s Hs Hin. apply reported_state in Hin. lia.
  - rewrite report_states. apply NoDup_filter, first_seen_NoDup.
Qed.

(** C2, amended.  When every summary row has a positive and a negative
    count that are not negative and whose sum is at most its total (an
    absent count being 0), every report of [/api/states] has its score
    between -1 and 1. *)
Theorem states_score_bounded (rows : list SummaryRow)
  (tweets : list RawRecord) :
  Forall consistent rows ->
  exists out,
    get_states_summary rows tweets = Json200 out
    /\ Forall (fun r => (-1 <= sentimentScore r)%Q
                        /\ (sentimentScore r <= 1)%Q) out.
Proof.
  intros Hrows. exists (reports_of tweets rows). unfold get_states_summary.
  rewrite states_summary_ok. split; [reflexivity|].
  apply reports_of_Forall. intros s Hs. cbn [sentimentScore report].
  unfold bucket_of.
  cbn [total_messages positive_count negative_count].
  apply quotient_bounds; [exact Hs|].
  pose proof (consistent_accumulated rows s Hrows). lia.
Qed.

(** C6.  The states of the reports of [/api/states] stand in the order in
    which they were first met, in the tweets and then in the summary rows:
    a reported state met in the tweets stands before a reported state met
    in the summary rows only.  The list is sorted neither by name nor by
    score: three rows for "B", "A" and "C" with the scores 1/2, 1 and 0 are
    reported in that order. *)
Theorem states_order :
  (forall rows tweets, exists out,
      get_states_summary rows tweets = Json200 out
      /\ List.map state out
         = List.filter
             (fun s => (0 <? accumulated s_total_messages s rows)%Z)
             (first_seen
                (List.map tweet_state tweets ++ List.map row_state rows))
      /\ (forall s1 s2,
             In s1 (List.map tweet_state tweets) ->
             ~ In s2 (List.map tweet_state tweets) ->
             In s1 (List.map state out) ->
             In s2 (List.map state out) ->
             precedes s1 s2 (List.map state out)))
  /\ (let row (region : string) (total pos : Z) :=
        {| s_region := Some (lit region);
           s_total_messages := Some total;
           s_positive_count := Some pos;
           s_negative_count := Some 0%Z;
           s_neutral_count := Some (total - pos)%Z |} in
      exists out,
        get_states_summary
          [ row "B"%string 2%Z 1%Z; row "A"%string 1%Z 1%Z;
            row "C"%string 1%Z 0%Z ] []
        = Json200 out
        /\ List.map state out = [lit "B"; lit "A"; lit "C"]
        /\ List.map sentimentScore out = [1 # 2; 1 # 1; 0 # 1]%Q
        /\ ascending str_leb (List.map state out) = false
        /\ ascending (fun a b => str_leb b a) (List.map state out) = false
        /\ ascending Qle_bool (List.map sentimentScore out) = false
        /\ ascending (fun a b => Qle_bool b a) (List.map sentimentScore out)
           = false).
Proof.
  split.
  - intros rows tweets. exists (reports_of tweets rows).
    unfold get_states_summary. rewrite states_summary_ok.
    split; [reflexivity|]. split; [apply report_states|].
    rewrite report_states. unfold states_met. apply filter_precedes.
  - cbv zeta. eexists. split; [reflexivity|].
    repeat split; reflexivity.
Qed.

(** C9.  On the same summary rows and the same tweets [/api/states]
    returns the same list of reports, in the same order. *)
Theorem states_idempotent (rows rows' : list SummaryRow)
  (tweets tweets' : list RawRecord) :
  rows = rows' -> tweets = tweets' ->
  exists out,
    get_states_summary rows tweets = Json200 out
    /\ get_states_summary rows' tweets' = Json200 out.
Proof.
  intros <- <-. exists (reports_of tweets rows).
  unfold get_states_summary. rewrite states_summary_ok.
  split; reflexivity.
Qed.

(** C10.  [/api/states] never raises, whatever fields the rows lack, and
    returns what it returns on the rows with every absent region set to
    "Unknown", every absent text to the empty text and every absent count
    to 0.  A tweet without region and text counts as a bus tweet of the
    state "Unknown", where [/api/tweets] shows the state "India"; a
    summary row without any field adds 0 to the four counts of
    "Unknown". *)
Theorem states_missing_fields :
  (forall rows tweets, exists out,
      get_states_summary rows tweets = Json200 out
      /\ get_states_summary (List.map fill_row rows)
           (List.map fill_tweet tweets)
         = Json200 out)
  /\ (forall state_data tweet,
         r_region tweet = None -> r_text tweet = None ->
         count_tweet state_data tweet
         = update_bucket (lit "Unknown") (incr_transport (lit "bus"))
             state_data)
  /\ (forall state_data row,
         s_region row = None -> s_total_messages row = None ->
         s_positive_count row = None -> s_negative_count row = None ->
         s_neutral_count row = None ->
         add_row state_data row
         = (state_data <-
              update_bucket (lit "Unknown") (add_total 0) state_data ;;
            state_data <-
              update_bucket (lit "Unknown") (add_positive 0) state_data ;;
            state_data <-
              update_bucket (lit "Unknown") (add_negative 0) state_data ;;
            update_bucket (lit "Unknown") (add_neutral 0) state_data))
  /\ (forall now id sentiment created_at,
         let tweet := {| r_id := id; r_text := None; r_region := None;
                         r_sentiment := sentiment;
                         r_created_at := created_at |} in
         let row := {| s_region := None;
                       s_total_messages := Some 3%Z;
                       s_positive_count := None;
                       s_negative_count := None;
                       s_neutral_count := None |} in
         get_states_summary [row] [tweet]
         = Json200
             [ {| state := lit "Unknown";
                  sentimentScore := (0 # 3)%Q;
                  totalMessages := 3;
                  transportBreakdown :=
                    [ (lit "bus", 1%Z); (lit "metro", 0%Z);
                      (lit "train", 0%Z); (lit "auto", 0%Z);
                      (lit "taxi", 0%Z) ];
                  sentimentBreakdown :=
                    {| positive := 0; negative := 0; neutral := 0 |} |} ]
         /\ exists shown,
              enrich now tweet = Ok shown /\ tw_state shown = lit "India").
Proof.
  split; [|split; [|split]].
  - intros rows tweets. exists (reports_of tweets rows).
    unfold get_states_summary.
    rewrite states_summary_fill, states_summary_ok.
    split; reflexivity.
  - intros state_data tweet Hregion Htext. unfold count_tweet.
    rewrite Hregion, Htext. reflexivity.
  - intros state_data row Hregion Ht Hp Hn Hu. unfold add_row.
    rewrite Hregion, Ht, Hp, Hn, Hu. reflexivity.
  - intros now id sentiment created_at. cbv zeta. split; [reflexivity|].
    eexists. split; [apply enrich_ok | reflexivity].
Qed.

(** ** More on the helper functions and the routes *)

(** *** strip, once more *)

Lemma lstrip_spaces (l s : str) :
  forallb isspace l = true -> lstrip (l ++ s) = lstrip s.
Proof.
  induction l as [|c l IH]; cbn [app forallb lstrip]; [reflexivity|].
  intros H. apply andb_true_iff in H. destruct H as [Hc Hl].
  rewrite Hc. apply IH. exact Hl.
Qed.

Lemma lstrip_all_spaces (l : str) :
  forallb isspace l = true -> lstrip l = [].
Proof.
  intros H. rewrite <- (app_nil_r l). rewrite lstrip_spaces by exact H.
  reflexivity.
Qed.

Lemma lstrip_app (s r : str) :
  lstrip (s ++ r) = if forallb isspace s then lstrip r else lstrip s ++ r.
Proof.
  induction s as [|c s IH]; cbn [app forallb lstrip]; [reflexivity|].
  destruct (isspace c); cbn [andb]; [exact IH | reflexivity].
Qed.

Lemma forallb_rev {A : Type} (p : A -> bool) (l : list A) :
  forallb p (rev l) = forallb p l.
Proof.
  destruct (forallb p l) eqn:E.
  - apply forallb_forall. intros x Hx. apply in_rev in Hx.
    rewrite forallb_forall in E. apply E. exact Hx.
  - destruct (forallb p (rev l)) eqn:E'; [|reflexivity].
    rewrite forallb_forall in E'. rewrite <- E. symmetry.
    apply forallb_forall. intros x Hx. apply E', in_rev.
    rewrite rev_involutive. exact Hx.
Qed.

Lemma rstrip_spaces (s r : str) :
  forallb isspace r = true -> rstrip (s ++ r) = rstrip s.
Proof.
  intros H. unfold rstrip. rewrite rev_app_distr, lstrip_spaces;
    [reflexivity|]. rewrite forallb_rev. exact H.
Qed.

Lemma strip_spaces_l (l s : str) :
  forallb isspace l = true -> strip (l ++ s) = strip s.
Proof.
  intros H. unfold strip. rewrite lstrip_spaces by exact H. reflexivity.
Qed.

Lemma strip_spaces_r (s r : str) :
  forallb isspace r = true -> strip (s ++ r) = strip s.
Proof.
  intros H. unfold strip. rewrite lstrip_app.
  destruct (forallb isspace s) eqn:E.
  - rewrite (lstrip_all_spaces r H), (lstrip_all_spaces s E). reflexivity.
  - apply rstrip_spaces. exact H.
Qed.

Lemma strip_strip (s : str) : strip (strip s) = strip s.
Proof.
  destruct (strip_spec s) as [l [r [Hs [Hl [Hr _]]]]].
  rewrite Hs at 2.
  rewrite strip_spaces_l by exact Hl.
  rewrite strip_spaces_r by exact Hr. reflexivity.
Qed.

Lemma strip_trimmed (s : str) : trimmed (strip s).
Proof.
  destruct (strip_spec s) as [l [r [_ [_ [_ [Hhead Hlast]]]]]].
  split; intros c t E.
  - rewrite E in Hhead. exact Hhead.
  - rewrite E, rev_app_distr in Hlast. exact Hlast.
Qed.

Lemma strip_In (x : char) (s : str) : In x (strip s) -> In x s.
Proof.
  destruct (strip_spec s) as [l [r [Hs _]]]. intros H.
  rewrite Hs. apply in_or_app. right. apply in_or_app. left. exact H.
Qed.

Lemma spaces_no_comma (l : str) : forallb isspace l = true -> ~ In comma l.
Proof.
  intros H Hin. rewrite forallb_forall in H. apply H in Hin.
  discriminate Hin.
Qed.

Lemma before_first_no_comma (sep : char) (s : str) :
  ~ In sep (before_first sep s).
Proof.
  induction s as [|c t IH]; cbn [before_first]; [intros []|].
  destruct (N.eqb c sep) eqn:E; [intros []|].
  intros [H|H]; [|exact (IH H)].
  subst. rewrite N.eqb_refl in E. discriminate E.
Qed.

Lemma after_last_no_comma (sep : char) (s : str) :
  ~ In sep (after_last sep s).
Proof.
  unfold after_last. intros H. apply in_rev in H.
  exact (before_first_no_comma sep (rev s) H).
Qed.

(** What follows the last comma of a region is what follows the last comma
    of its part after any of its commas. *)
Lemma after_last_skip (sep : char) (a b : str) :
  after_last sep (a ++ sep :: b) = after_last sep b.
Proof.
  destruct (in_dec N.eq_dec sep b) as [H|H].
  - destruct (last_occurrence sep b H) as [x [Hb Hno]].
    rewrite Hb at 1.
    replace (a ++ sep :: x ++ sep :: after_last sep b)
      with ((a ++ sep :: x) ++ sep :: after_last sep b)
      by (rewrite <- app_assoc; reflexivity).
    apply after_last_app. exact Hno.
  - rewrite after_last_app, after_last_no_sep by exact H. reflexivity.
Qed.

(** Trimming a region before cutting it changes nothing. *)
Lemma state_of_stripped (s : str) :
  state_of_region (strip s) = state_of_region s.
Proof.
  unfold state_of_region.
  destruct (strip_spec s) as [l [r [Hs [Hl [Hr _]]]]].
  destruct (in_dec N.eq_dec comma (strip s)) as [H|H].
  - destruct (last_occurrence comma (strip s) H) as [a [Hm Hno]].
    rewrite Hs at 2. rewrite Hm at 2.
    replace (l ++ (a ++ comma :: after_last comma (strip s)) ++ r)
      with ((l ++ a) ++ comma :: (after_last comma (strip s) ++ r))
      by (rewrite <- !app_assoc; reflexivity).
    rewrite after_last_app.
    + rewrite strip_spaces_r by exact Hr. reflexivity.
    + intros Hin. apply in_app_or in Hin. destruct Hin as [Hin|Hin];
        [exact (Hno Hin) | exact (spaces_no_comma r Hr Hin)].
  - rewrite (after_last_no_sep comma (strip s)) by exact H.
    rewrite strip_strip.
    rewrite after_last_no_sep; [reflexivity|].
    rewrite Hs. intros Hin. apply in_app_or in Hin.
    destruct Hin as [Hin|Hin]; [exact (spaces_no_comma l Hl Hin)|].
    apply in_app_or in Hin. destruct Hin as [Hin|Hin];
      [exact (H Hin) | exact (spaces_no_comma r Hr Hin)].
Qed.

Lemma state_of_shown_state (region : str) :
  state_of_region (shown_state region) = state_of_region region.
Proof.
  unfold shown_state. destruct (has_char comma region) eqn:E.
  - apply has_char_In in E.
    destruct (first_occurrence comma region E) as [Hregion _].
    rewrite state_of_stripped. rewrite Hregion at 2.
    unfold state_of_region. rewrite after_last_skip. reflexivity.
  - apply state_of_stripped.
Qed.


(** *** The state of a region and the tweets shown *)

(** X1.  The state [extract_state_from_region] returns holds no comma and
    neither starts nor ends with white space, and it is its own state:
    extracting the state of the state returns it unchanged. *)
Theorem extract_state_normal (region : str) :
  exists state,
    extract_state_from_region region = Ok state
    /\ ~ In comma state
    /\ trimmed state
    /\ extract_state_from_region state = Ok state.
Proof.
  exists (state_of_region region).
  split; [apply extract_state_of_region|].
  assert (Hno : ~ In comma (state_of_region region)).
  { unfold state_of_region. intros H. apply strip_In in H.
    exact (after_last_no_comma comma region H). }
  split; [exact Hno|]. split; [apply strip_trimmed|].
  rewrite extract_state_of_region. f_equal.
  unfold state_of_region at 1.
  rewrite after_last_no_sep by exact Hno.
  unfold state_of_region. apply strip_strip.
Qed.

(** X2.  The region is cut after trimming as before it, and whatever
    stands before one of its commas does not count: the state of
    [a ++ "," ++ b] is the state of [b]. *)
Theorem extract_state_of_suffix :
  (forall region,
      extract_state_from_region (strip region)
      = extract_state_from_region region)
  /\ (forall a b,
         extract_state_from_region (a ++ comma :: b)
         = extract_state_from_region b).
Proof.
  split.
  - intros region. rewrite !extract_state_of_region, state_of_stripped.
    reflexivity.
  - intros a b. rewrite !extract_state_of_region. unfold state_of_region.
    rewrite after_last_skip. reflexivity.
Qed.

(** X3.  The state [/api/tweets] shows for a row leads to the bucket of
    the row in [/api/states]: [extract_state_from_region] returns the same
    for the [state] of the tweet shown as for its [location]. *)
Theorem enrich_state_agrees (now : datetime) (row : RawRecord) :
  exists tweet,
    enrich now row = Ok tweet
    /\ extract_state_from_region (tw_state tweet)
       = extract_state_from_region (tw_location tweet).
Proof.
  eexists. split; [apply enrich_ok|]. cbv zeta. cbn [tw_state tw_location].
  rewrite !extract_state_of_region, state_of_shown_state. reflexivity.
Qed.

Lemma score_range (label : str) :
  In (determine_sentiment_score label) [0.5%Q; (-0.5)%Q; 0%Q].
Proof.
  rewrite score_of_lower.
  destruct (str_eqb (lower label) (lit "positive")); [left; reflexivity|].
  destruct (str_eqb (lower label) (lit "negative"));
    [right; left; reflexivity | right; right; left; reflexivity].
Qed.

Lemma enrich_all_rows (clock : nat -> datetime) (rows : list RawRecord) :
  forall i, exists tweets,
    enrich_all clock i rows = Ok tweets
    /\ Forall2 (fun row tweet => exists now, enrich now row = Ok tweet)
         rows tweets.
Proof.
  induction rows as [|row rest IH]; intros i; cbn [enrich_all].
  - exists []. split; [reflexivity | constructor].
  - destruct (IH (S i)) as [tweets [Hrest Hall]].
    pose proof (enrich_ok (clock i) row) as Hrow. cbv zeta in Hrow.
    rewrite Hrow, Hrest. cbn [bind].
    eexists. split; [reflexivity|]. constructor; [|exact Hall].
    exists (clock i). exact Hrow.
Qed.

(** X4.  Every tweet [/api/tweets] returns has a city and a state that
    neither start nor end with white space, a city without comma, one of
    the five transport types and one of the polarities 0.5, -0.5 and 0. *)
Theorem get_tweets_fields (clock : nat -> datetime)
  (rows : list RawRecord) :
  exists body,
    get_tweets clock rows = Json200 body
    /\ Forall (fun tweet =>
                 trimmed (tw_city tweet)
                 /\ trimmed (tw_state tweet)
                 /\ ~ In comma (tw_city tweet)
                 /\ In (tw_transportType tweet) transport_types
                 /\ In (polarity (tw_sentiment tweet))
                      [0.5%Q; (-0.5)%Q; 0%Q])
         body.
Proof.
  destruct (enrich_all_rows clock rows 0) as [tweets [Hrun Hall]].
  exists tweets. unfold get_tweets. rewrite Hrun. split; [reflexivity|].
  clear Hrun. induction Hall as [|row tweet rest tweets [now Hrow] _ IH];
    constructor; [|exact IH].
  rewrite enrich_ok in Hrow. cbv zeta in Hrow.
  injection Hrow as <-.
  cbn [tw_city tw_state tw_transportType tw_sentiment polarity].
  split; [apply strip_trimmed|]. split.
  { unfold shown_state.
    destruct (has_char comma _); apply strip_trimmed. }
  split.
  { unfold shown_city. intros H. apply strip_In in H.
    exact (before_first_no_comma comma _ H). }
  split; [apply transport_range | apply score_range].
Qed.

(** X5.  [/api/tweets] returns one tweet for each row, in the order of the
    rows, with the id of the row, its text, its region as location and its
    sentiment label, each absent field being read as [None], the empty
    text, "India" and "neutral". *)
Theorem get_tweets_rows (clock : nat -> datetime) (rows : list RawRecord) :
  exists body,
    get_tweets clock rows = Json200 body
    /\ List.map tw_id body = List.map r_id rows
    /\ List.map tw_text body
       = List.map (fun row => get (r_text row) (lit "")) rows
    /\ List.map tw_location body
       = List.map (fun row => get (r_region row) (lit "India")) rows
    /\ List.map (fun tweet => label (tw_sentiment tweet)) body
       = List.map (fun row => get (r_sentiment row) (lit "neutral")) rows.
Proof.
  destruct (enrich_all_rows clock rows 0) as [tweets [Hrun Hall]].
  exists tweets. unfold get_tweets. rewrite Hrun. split; [reflexivity|].
  clear Hrun. induction Hall as [|row tweet rest tweets [now Hrow] _ IH];
    [repeat split|].
  rewrite enrich_ok in Hrow. cbv zeta in Hrow. injection Hrow as <-.
  destruct IH as [H1 [H2 [H3 H4]]]. cbn [List.map].
  rewrite H1, H2, H3, H4. repeat split.
Qed.


(** *** The reports of [/api/states] *)

Lemma sum_Z_zero {A : Type} (l : list A) :
  sum_Z (List.map (fun _ => 0%Z) l) = 0%Z.
Proof. induction l as [|x l IH]; cbn [List.map sum_Z]; lia. Qed.

Lemma sum_Z_add {A : Type} (f g : A -> Z) (l : list A) :
  sum_Z (List.map (fun x => (f x + g x)%Z) l)
  = (sum_Z (List.map f l) + sum_Z (List.map g l))%Z.
Proof. induction l as [|x l IH]; cbn [List.map sum_Z]; lia. Qed.

(** Among keys that are all different, one key is found once. *)
Lemma sum_Z_one_key (ks : list str) (x : str) (v : Z) :
  NoDup ks -> In x ks ->
  sum_Z (List.map (fun k => if str_eqb x k then v else 0%Z) ks) = v.
Proof.
  induction 1 as [|k ks Hk _ IH]; intros Hin; [contradiction|].
  cbn [List.map sum_Z]. destruct (str_eqb x k) eqn:E.
  - apply str_eqb_eq in E. subst k.
    rewrite (map_ext_in _ (fun _ => 0%Z)), sum_Z_zero; [lia|].
    intros y Hy. destruct (str_eqb x y) eqn:Ey; [|reflexivity].
    apply str_eqb_eq in Ey. subst y. contradiction.
  - destruct Hin as [Hin|Hin]; [subst; rewrite str_eqb_refl in E; discriminate|].
    rewrite IH by exact Hin. lia.
Qed.



(** X7.  The sentiment breakdown of every report of [/api/states] holds
    the accumulated positive, negative and neutral counts of the summary
    rows of the state, and the report agrees with itself: its
    [totalMessages] is positive and its score is its positive count minus
    its negative count, divided by its [totalMessages]. *)
Theorem states_sentiment_breakdown (rows : list SummaryRow)
  (tweets : list RawRecord) :
  exists out,
    get_states_summary rows tweets = Json200 out
    /\ Forall
         (fun r =>
            positive (sentimentBreakdown r)
            = accumulated s_positive_count (state r) rows
            /\ negative (sentimentBreakdown r)
               = accumulated s_negative_count (state r) rows
            /\ neutral (sentimentBreakdown r)
               = accumulated s_neutral_count (state r) rows
            /\ (0 < totalMessages r)%Z
            /\ sentimentScore r
               = (inject_Z (positive (sentimentBreakdown r)
                            - negative (sentimentBreakdown r))
                  / inject_Z (totalMessages r))%Q)
         out.
Proof.
  exists (reports_of tweets rows). unfold get_states_summary.
  rewrite states_summary_ok. split; [reflexivity|].
  apply reports_of_Forall. intros s Hs. repeat split. exact Hs.
Qed.

Lemma accumulated_positive_row (field : SummaryRow -> option Z) (s : str)
  (rows : list SummaryRow) :
  accumulated field s rows <> 0%Z -> In s (List.map row_state rows).
Proof.
  intros H. destruct (in_dec (list_eq_dec N.eq_dec) s (List.map row_state rows))
    as [Hin|Hin]; [exact Hin|].
  exfalso. apply H. apply accumulated_unseen. exact Hin.
Qed.

Lemma filter_none {A : Type} (p : A -> bool) (l : list A) :
  (forall x, p x = false) -> List.filter p l = [].
Proof.
  intros H. induction l as [|x l IH]; cbn [List.filter]; [reflexivity|].
  rewrite H. exact IH.
Qed.

(** X8.  Every state [/api/states] reports is the state of a summary row:
    a state met in the tweets only is not reported, there are at most as
    many reports as summary rows, and without summary rows the list is
    empty, whatever the tweets. *)
Theorem states_from_rows (rows : list SummaryRow)
  (tweets : list RawRecord) :
  exists out,
    get_states_summary rows tweets = Json200 out
    /\ incl (List.map state out) (List.map row_state rows)
    /\ (List.length out <= List.length rows)%nat
    /\ get_states_summary [] tweets = Json200 [].
Proof.
  exists (reports_of tweets rows). unfold get_states_summary.
  rewrite !states_summary_ok. split; [reflexivity|].
  assert (Hincl : incl (List.map state (reports_of tweets rows))
                    (List.map row_state rows)).
  { intros s Hs. apply reported_state in Hs. destruct Hs as [_ Hs].
    apply (accumulated_positive_row s_total_messages). lia. }
  split; [exact Hincl|]. split.
  - rewrite <- (length_map state), <- (length_map row_state rows).
    apply NoDup_incl_length; [|exact Hincl].
    rewrite report_states. apply NoDup_filter, first_seen_NoDup.
  - unfold reports_of, states_met. cbn [List.map accumulated].
    rewrite filter_none; reflexivity.
Qed.


Lemma accumulated_perm (field : SummaryRow -> option Z) (s : str)
  (rows rows' : list SummaryRow) :
  Permutation rows rows' ->
  accumulated field s rows = accumulated field s rows'.
Proof.
  induction 1; cbn [accumulated]; lia.
Qed.

Lemma tweet_count_perm (transport s : str) (tweets tweets' : list RawRecord) :
  Permutation tweets tweets' ->
  tweet_count transport s tweets = tweet_count transport s tweets'.
Proof.
  induction 1; cbn [tweet_count]; lia.
Qed.

Lemma first_seen_perm (l l' : list str) :
  Permutation l l' -> Permutation (first_seen l) (first_seen l').
Proof.
  intros H. apply NoDup_Permutation; try apply first_seen_NoDup.
  intros x. rewrite !first_seen_In. split.
  - apply Permutation_in. exact H.
  - apply Permutation_in. apply Permutation_sym. exact H.
Qed.

Lemma filter_perm {A : Type} (p : A -> bool) (l l' : list A) :
  Permutation l l' -> Permutation (List.filter p l) (List.filter p l').
Proof.
  induction 1 as [|x l l' _ IH|x y l|l l' l'' _ IH1 _ IH2];
    cbn [List.filter].
  - constructor.
  - destruct (p x); [constructor|]; exact IH.
  - destruct (p x), (p y); try apply Permutation_refl. constructor.
  - exact (Permutation_trans IH1 IH2).
Qed.

Lemma reports_of_ext (tweets tweets' : list RawRecord)
  (rows rows' : list SummaryRow) :
  (forall s, bucket_of tweets rows s = bucket_of tweets' rows' s) ->
  reports_of tweets rows
  = List.map (fun s => report s (bucket_of tweets' rows' s))
      (List.filter
         (fun s => (0 <? accumulated s_total_messages s rows')%Z)
         (states_met tweets rows)).
Proof.
  intros H. unfold reports_of.
  rewrite (filter_ext _
             (fun s => (0 <? accumulated s_total_messages s rows')%Z)).
  - apply map_ext. intros s. rewrite H. reflexivity.
  - intros s. specialize (H s). unfold bucket_of in H.
    injection H as Ht _ _ _ _. rewrite Ht. reflexivity.
Qed.

(** X9.  The order of the summary rows and of the tweets decides the order
    of the reports of [/api/states] and nothing else: on the same rows and
    the same tweets in another order the reports are the same, in another
    order. *)
Theorem states_permutation (rows rows' : list SummaryRow)
  (tweets tweets' : list RawRecord) :
  Permutation rows rows' -> Permutation tweets tweets' ->
  exists out out',
    get_states_summary rows tweets = Json200 out
    /\ get_states_summary rows' tweets' = Json200 out'
    /\ Permutation out out'.
Proof.
  intros Hrows Htweets.
  exists (reports_of tweets rows), (reports_of tweets' rows').
  unfold get_states_summary. rewrite !states_summary_ok.
  split; [reflexivity|]. split; [reflexivity|].
  rewrite (reports_of_ext tweets tweets' rows rows').
  - unfold reports_of. apply Permutation_map, filter_perm.
    unfold states_met. apply first_seen_perm, Permutation_app;
      apply Permutation_map; assumption.
  - intros s. unfold bucket_of.
    rewrite !(accumulated_perm _ s rows rows' Hrows). f_equal.
    apply map_ext. intros transport.
    rewrite (tweet_count_perm transport s tweets tweets' Htweets).
    reflexivity.
Qed.

(** A key that was met before is not met first again. *)
Lemma first_seen_again (a y : list str) (s : str) :
  In s a -> first_seen (a ++ s :: y) = first_seen (a ++ y).
Proof.
  intros Hs. rewrite !first_seen_app. f_equal. cbn [first_seen List.filter].
  apply mem_In in Hs. rewrite Hs. cbn [negb].
  rewrite filter_filter. apply filter_ext_in. intros x _.
  destruct (str_eqb x s) eqn:E; [|reflexivity].
  apply str_eqb_eq in E. subst x. rewrite Hs. reflexivity.
Qed.

(** X10.  A summary row can be folded into an earlier row of the same
    state: [/api/states] returns the same for the rows with the later row
    left out and its counts added to those of the earlier row. *)
Theorem states_merge_rows (before between after : list SummaryRow)
  (a b : SummaryRow) (tweets : list RawRecord) :
  row_state a = row_state b ->
  get_states_summary (before ++ a :: between ++ b :: after) tweets
  = get_states_summary (before ++ merge_rows a b :: between ++ after) tweets.
Proof.
  intros Hab. unfold get_states_summary. rewrite !states_summary_ok.
  f_equal. f_equal.
  assert (Hm : row_state (merge_rows a b) = row_state a) by reflexivity.
  rewrite (reports_of_ext tweets tweets
             (before ++ a :: between ++ b :: after)
             (before ++ merge_rows a b :: between ++ after)).
  - unfold reports_of, states_met. do 2 f_equal.
    rewrite !map_app. cbn [List.map]. rewrite !map_app. cbn [List.map].
    rewrite Hm, <- Hab.
    set (s := row_state a).
    replace (List.map tweet_state tweets
             ++ List.map row_state before
             ++ s :: List.map row_state between
             ++ s :: List.map row_state after)
      with ((List.map tweet_state tweets
             ++ List.map row_state before
             ++ s :: List.map row_state between)
            ++ s :: List.map row_state after)
      by (repeat (rewrite <- app_assoc; cbn [app]); reflexivity).
    rewrite first_seen_again.
    + repeat (rewrite <- app_assoc; cbn [app]). reflexivity.
    + apply in_or_app. right. apply in_or_app. right. left. reflexivity.
  - intros s. unfold bucket_of.
    assert (Hacc : forall field,
               get (field (merge_rows a b)) 0%Z
               = (get (field a) 0 + get (field b) 0)%Z ->
               accumulated field s (before ++ a :: between ++ b :: after)
               = accumulated field s
                   (before ++ merge_rows a b :: between ++ after)).
    { intros field Hfield. rewrite !accumulated_app. cbn [accumulated].
      rewrite !accumulated_app. cbn [accumulated].
      rewrite Hm, Hfield, <- Hab.
      destruct (str_eqb (row_state a) s); lia. }
    rewrite (Hacc s_total_messages), (Hacc s_positive_count),
      (Hacc s_negative_count), (Hacc s_neutral_count) by reflexivity.
    reflexivity.
Qed.

Lemma accumulated_nonneg (field : SummaryRow -> option Z) (s : str)
  (rows : list SummaryRow) :
  Forall (fun row => (0 <= get (field row) 0)%Z) rows ->
  (0 <= accumulated field s rows)%Z.
Proof.
  induction 1 as [|row rows Hrow _ IH]; cbn [accumulated]; [lia|].
  destruct (str_eqb (row_state row) s); lia.
Qed.

Lemma sum_Z_positive_part {A : Type} (f : A -> Z) (l : list A) :
  (forall x, (0 <= f x)%Z) ->
  sum_Z (List.map f (List.filter (fun x => (0 <? f x)%Z) l))
  = sum_Z (List.map f l).
Proof.
  intros H. induction l as [|x l IH]; cbn [List.filter]; [reflexivity|].
  destruct (0 <? f x)%Z eqn:E; cbn [List.map sum_Z]; rewrite IH;
    [reflexivity|].
  apply Z.ltb_ge in E. specialize (H x). lia.
Qed.

(** Every row counts for one of the keys that hold its state. *)
Lemma accumulated_sum (field : SummaryRow -> option Z) (ks : list str)
  (rows : list SummaryRow) :
  NoDup ks -> incl (List.map row_state rows) ks ->
  sum_Z (List.map (fun s => accumulated field s rows) ks)
  = sum_Z (List.map (fun row => get (field row) 0%Z) rows).
Proof.
  intros Hnd. induction rows as [|row rows IH]; intros Hincl.
  - cbn [accumulated List.map sum_Z]. apply sum_Z_zero.
  - cbn [accumulated List.map sum_Z]. rewrite sum_Z_add, IH.
    + f_equal. apply sum_Z_one_key; [exact Hnd|].
      apply Hincl. left. reflexivity.
    + intros s Hs. apply Hincl. right. exact Hs.
Qed.

(** X11.  When no summary row has a negative [total_messages], the
    [totalMessages] of the reports of [/api/states] add up to the
    [total_messages] of all the summary rows: every message of the summary
    is counted in one report. *)
Theorem states_totals_kept (rows : list SummaryRow)
  (tweets : list RawRecord) :
  Forall (fun row => (0 <= get (s_total_messages row) 0)%Z) rows ->
  exists out,
    get_states_summary rows tweets = Json200 out
    /\ sum_Z (List.map totalMessages out)
       = sum_Z (List.map (fun row => get (s_total_messages row) 0%Z) rows).
Proof.
  intros Hrows. exists (reports_of tweets rows). unfold get_states_summary.
  rewrite states_summary_ok. split; [reflexivity|].
  unfold reports_of. rewrite map_map. cbn [totalMessages report].
  unfold bucket_of. cbn [total_messages].
  rewrite (sum_Z_positive_part
             (fun s => accumulated s_total_messages s rows))
    by (intros s; apply accumulated_nonneg; exact Hrows).
  apply accumulated_sum; [apply first_seen_NoDup|].
  intros s Hs. unfold states_met. apply first_seen_In, in_or_app.
  right. exact Hs.
Qed.

Lemma tweet_key_counts (transport s : str) (tweets : list RawRecord) :
  forall tweets',
    List.map tweet_key tweets = List.map tweet_key tweets' ->
    tweet_count transport s tweets = tweet_count transport s tweets'.
Proof.
  induction tweets as [|tweet rest IH]; intros [|tweet' rest'] H;
    try discriminate H; [reflexivity|].
  cbn [List.map] in H. unfold tweet_key at 1 3 in H.
  injection H as Hstate Htype Hrest.
  cbn [tweet_count]. rewrite Hstate, Htype, (IH rest' Hrest). reflexivity.
Qed.

(** X12.  [/api/states] reads of a tweet its state and its transport type
    only: on tweets with the same states and transport types, whatever
    their ids, texts, sentiment labels and timestamps, it returns the
    same. *)
Theorem states_tweet_key (rows : list SummaryRow)
  (tweets tweets' : list RawRecord) :
  List.map tweet_key tweets = List.map tweet_key tweets' ->
  get_states_summary rows tweets = get_states_summary rows tweets'.
Proof.
  intros H. unfold get_states_summary. rewrite !states_summary_ok.
  f_equal. f_equal.
  assert (Hstates : List.map tweet_state tweets
                    = List.map tweet_state tweets').
  { apply (f_equal (List.map fst)) in H. rewrite !map_map in H. exact H. }
  rewrite (reports_of_ext tweets tweets' rows rows).
  - unfold reports_of, states_met. rewrite Hstates. reflexivity.
  - intros s. unfold bucket_of. f_equal. apply map_ext. intros transport.
    rewrite (tweet_key_counts transport s tweets tweets' H). reflexivity.
Qed.


(** *** The scorer and the classifier, once more *)

Lemma ascii_space (c : char) :
  (c < 128)%N -> isspace c = true ->
  (9 <= c <= 13)%N \/ (28 <= c <= 32)%N.
Proof.
  intros Hc H. unfold isspace in H.
  rewrite !orb_true_iff, !andb_true_iff, !N.leb_le, !N.eqb_eq in H. lia.
Qed.

Lemma ascii_lower_space (c : char) :
  (c < 128)%N -> isspace c = true -> ascii_lower c = c.
Proof.
  intros Hc H. destruct (ascii_space c Hc H) as [R|R];
    unfold ascii_lower, is_ascii_upper;
    (destruct (65 <=? c)%N eqn:E; [apply N.leb_le in E; lia|]);
    reflexivity.
Qed.

(** X13.  The label is lower-cased but not trimmed: a label that starts or
    ends with an ASCII white-space character is none of the three labels
    and has the score 0, also " positive" and "negative\n". *)
Theorem score_untrimmed (label : str) (c : char) :
  (c < 128)%N -> isspace c = true ->
  determine_sentiment_score (c :: label) = 0%Q
  /\ determine_sentiment_score (label ++ [c]) = 0%Q.
Proof.
  intros Hc Hspace.
  pose proof (ascii_space c Hc Hspace) as Hrange.
  pose proof (ascii_lower_space c Hc Hspace) as Hlow.
  assert (Hhead : forall word, exists rest, lower (c :: word) = c :: rest).
  { intros word. unfold lower. cbn [lower_go]. unfold lower_char.
    apply N.ltb_lt in Hc. rewrite Hc, Hlow. eexists. reflexivity. }
  assert (Hlast : forall word, exists x, lower (word ++ [c]) = x ++ [c]).
  { intros word. unfold lower.
    destruct (lower_go_suffix word [c] []) as [x Hx]. exists x.
    rewrite Hx. cbn [lower_go]. unfold lower_char.
    apply N.ltb_lt in Hc. rewrite Hc, Hlow. reflexivity. }
  split; rewrite score_of_lower.
  - destruct (Hhead label) as [rest ->].
    change (lit "positive") with (112%N :: lit "ositive").
    change (lit "negative") with (110%N :: lit "egative").
    cbn [str_eqb].
    replace (c =? 112)%N with false by (symmetry; apply N.eqb_neq; lia).
    replace (c =? 110)%N with false by (symmetry; apply N.eqb_neq; lia).
    reflexivity.
  - destruct (Hlast label) as [x ->].
    assert (Hp : str_eqb (x ++ [c]) (lit "positive") = false).
    { apply str_eqb_neq.
      change (lit "positive") with (lit "positiv" ++ [101%N]).
      intros H. apply app_inj_tail in H. lia. }
    assert (Hn : str_eqb (x ++ [c]) (lit "negative") = false).
    { apply str_eqb_neq.
      change (lit "negative") with (lit "negativ" ++ [101%N]).
      intros H. apply app_inj_tail in H. lia. }
    rewrite Hp, Hn. reflexivity.
Qed.



Lemma enrich_all_clock (clock clock' : nat -> datetime)
  (rows : list RawRecord) :
  Forall (fun row => r_created_at row <> None) rows ->
  forall i j, enrich_all clock i rows = enrich_all clock' j rows.
Proof.
  induction 1 as [|row rest Hrow _ IH]; intros i j; cbn [enrich_all];
    [reflexivity|].
  rewrite (IH (S i) (S j)).
  replace (enrich (clock i) row) with (enrich (clock' j) row);
    [reflexivity|].
  unfold enrich. destruct (r_created_at row); [reflexivity|].
  exfalso. apply Hrow. reflexivity.
Qed.

(** X15.  The current time is read for the rows without timestamp only:
    on rows that all have a [created_at], [/api/tweets] returns the same
    whatever the clock shows. *)
Theorem get_tweets_clock (clock clock' : nat -> datetime)
  (rows : list RawRecord) :
  Forall (fun row => r_created_at row <> None) rows ->
  get_tweets clock rows = get_tweets clock' rows.
Proof.
  intros H. unfold get_tweets.
  rewrite (enrich_all_clock clock clock' rows H 0 0). reflexivity.
Qed.

(** X16.  The polarity tells the label: the score is 0.5 exactly when the
    lower-case form of the label is "positive", and -0.5 exactly when it is
    "negative". *)
Theorem score_tells_label (label : str) :
  (determine_sentiment_score label = 0.5%Q <-> lower label = lit "positive")
  /\ (determine_sentiment_score label = (-0.5)%Q
      <-> lower label = lit "negative").
Proof.
  rewrite score_of_lower.
  destruct (str_eqb (lower label) (lit "positive")) eqn:Ep.
  - apply str_eqb_eq in Ep. rewrite Ep.
    split; split; intros H; try reflexivity;
      vm_compute in H; discriminate H.
  - apply str_eqb_neq in Ep.
    destruct (str_eqb (lower label) (lit "negative")) eqn:En.
    + apply str_eqb_eq in En. rewrite En.
      split; split; intros H; try reflexivity; try contradiction;
        vm_compute in H; discriminate H.
    + apply str_eqb_neq in En.
      split; split; intros H; try discriminate H; contradiction.
Qed.


End Service.

Arguments r_id {datetime} _.
Arguments r_text {datetime} _.
Arguments r_region {datetime} _.
Arguments r_sentiment {datetime} _.
Arguments r_created_at {datetime} _.

(** ** The claims at concrete inputs *)

(** C2, as stated, fails: one summary row with one message and two positive
    ones is reported with the score 2. *)
Lemma score_above_one :
  exists out r,
    get_states_summary caseless_lower naive_datetime
      [ {| s_region := Some (lit "Goa");
           s_total_messages := Some 1%Z;
           s_positive_count := Some 2%Z;
           s_negative_count := Some 0%Z;
           s_neutral_count := Some 0%Z |} ] []
    = Json200 out
    /\ In r out
    /\ sentimentScore r = (2 # 1)%Q
    /\ ~ (sentimentScore r <= 1)%Q.
Proof.
  eexists. eexists. split; [reflexivity|].
  split; [left; reflexivity|]. split; [reflexivity|].
  cbn. unfold Qle. cbn. lia.
Qed.

Lemma states_score_bounded_witness :
  let rows :=
    [ {| s_region := Some (lit "Mumbai, Maharashtra");
         s_total_messages := Some 10%Z;
         s_positive_count := Some 6%Z;
         s_negative_count := Some 2%Z;
         s_neutral_count := Some 2%Z |};
      {| s_region := Some (lit "Delhi");
         s_total_messages := Some 4%Z;
         s_positive_count := None;
         s_negative_count := Some 3%Z;
         s_neutral_count := None |} ] in
  let tweets :=
    [ {| r_id := Some 1%Z;
         r_text := Some (lit "Metro was on time");
         r_region := Some (lit "Pune, Maharashtra");
         r_sentiment := Some (lit "positive");
         r_created_at := Some noon |} ] in
  Forall consistent rows
  /\ exists out,
       get_states_summary caseless_lower naive_datetime rows tweets
       = Json200 out
       /\ Forall (fun r => (-1 <= sentimentScore r)%Q
                           /\ (sentimentScore r <= 1)%Q) out.
Proof.
  cbv zeta.
  assert (H : Forall consistent
                [ {| s_region := Some (lit "Mumbai, Maharashtra");
                     s_total_messages := Some 10%Z;
                     s_positive_count := Some 6%Z;
                     s_negative_count := Some 2%Z;
                     s_neutral_count := Some 2%Z |};
                  {| s_region := Some (lit "Delhi");
                     s_total_messages := Some 4%Z;
                     s_positive_count := None;
                     s_negative_count := Some 3%Z;
                     s_neutral_count := None |} ]).
  { repeat constructor; cbn; lia. }
  split; [exact H|].
  exact (states_score_bounded caseless_lower naive_datetime _ _ H).
Defined.

Lemma states_idempotent_witness :
  let rows :=
    [ {| s_region := Some (lit "Mumbai, Maharashtra");
         s_total_messages := Some 10%Z;
         s_positive_count := Some 6%Z;
         s_negative_count := Some 2%Z;
         s_neutral_count := Some 2%Z |} ] in
  let tweets :=
    [ {| r_id := Some 1%Z;
         r_text := Some (lit "Bus was late");
         r_region := Some (lit "Mumbai, Maharashtra");
         r_sentiment := Some (lit "negative");
         r_created_at := Some noon |} ] in
  exists out,
    get_states_summary caseless_lower naive_datetime rows tweets = Json200 out
    /\ get_states_summary caseless_lower naive_datetime rows tweets
       = Json200 out.
Proof.
  cbv zeta.
  exact (states_idempotent caseless_lower naive_datetime _ _ _ _
           eq_refl eq_refl).
Defined.

Lemma extract_state_last_comma_witness :
  ~ In comma (lit " C")
  /\ extract_state_from_region (lit "A, B" ++ comma :: lit " C")
     = Ok (strip (lit " C")).
Proof.
  assert (H : ~ In comma (lit " C")) by (apply has_char_false; reflexivity).
  split; [exact H|].
  exact (proj1 (proj2 extract_state_last_comma) (lit "A, B") (lit " C") H).
Defined.

Lemma enrich_first_comma_witness :
  let row :=
    {| r_id := Some 7%Z;
       r_text := Some (lit "Auto fares are up");
       r_region := Some (lit "Mumbai, Maharashtra, India");
       r_sentiment := Some (lit "negative");
       r_created_at := Some noon |} in
  get (r_region row) (lit "India")
  = lit "Mumbai" ++ comma :: lit " Maharashtra, India"
  /\ ~ In comma (lit "Mumbai")
  /\ exists tweet,
       enrich caseless_lower naive_datetime naive_isoformat noon row = Ok tweet
       /\ tw_city tweet = strip (lit "Mumbai")
       /\ tw_state tweet = strip (lit " Maharashtra, India").
Proof.
  cbv zeta.
  assert (H : ~ In comma (lit "Mumbai")) by (apply has_char_false; reflexivity).
  split; [reflexivity|]. split; [exact H|].
  apply (proj1 (enrich_first_comma caseless_lower naive_datetime
                  naive_isoformat));
    [reflexivity | exact H].
Defined.

Lemma classify_transport_witness :
  casing_of (lit "metro") (lit "MeTrO")
  /\ determine_transport_type caseless_lower
       (lit "Delhi " ++ lit "MeTrO" ++ lit " is crowded")
     = lit "metro".
Proof.
  assert (H : casing_of (lit "metro") (lit "MeTrO")).
  { split; [|reflexivity]. repeat constructor. }
  split; [exact H|].
  exact (proj1 (proj2 (proj2 (proj2 (classify_transport caseless_lower))))
           (lit "MeTrO") (lit "Delhi ") (lit " is crowded") H).
Defined.

Lemma score_sentiment_witness :
  casing_of (lit "negative") (lit "NEGative")
  /\ determine_sentiment_score caseless_lower (lit "NEGative") = (-0.5)%Q.
Proof.
  assert (H : casing_of (lit "negative") (lit "NEGative")).
  { split; [|reflexivity]. repeat constructor. }
  split; [exact H|].
  exact (proj1 (proj2 (proj2 (score_sentiment caseless_lower)))
           (lit "NEGative") H).
Defined.

Lemma states_score_formula_witness :
  exists out,
    get_states_summary caseless_lower naive_datetime
      [ {| s_region := Some (lit "Panaji, Goa");
           s_total_messages := Some 0%Z;
           s_positive_count := Some 0%Z;
           s_negative_count := Some 0%Z;
           s_neutral_count := Some 0%Z |} ] []
    = Json200 out
    /\ ~ In (lit "Goa") (List.map state out).
Proof.
  destruct (states_score_formula caseless_lower naive_datetime
              [ {| s_region := Some (lit "Panaji, Goa");
                   s_total_messages := Some 0%Z;
                   s_positive_count := Some 0%Z;
                   s_negative_count := Some 0%Z;
                   s_neutral_count := Some 0%Z |} ] [])
    as [out [Hout [_ [_ [Hzero _]]]]].
  exists out. split; [exact Hout|].
  apply Hzero. reflexivity.
Defined.

Lemma states_order_witness :
  exists out,
    get_states_summary caseless_lower naive_datetime
      [ {| s_region := Some (lit "Panaji, Goa");
           s_total_messages := Some 2%Z;
           s_positive_count := Some 1%Z;
           s_negative_count := Some 1%Z;
           s_neutral_count := Some 0%Z |};
        {| s_region := Some (lit "Kochi, Kerala");
           s_total_messages := Some 1%Z;
           s_positive_count := Some 1%Z;
           s_negative_count := Some 0%Z;
           s_neutral_count := Some 0%Z |} ]
      [ {| r_id := Some 1%Z;
           r_text := Some (lit "Bus was late");
           r_region := Some (lit "Kochi, Kerala");
           r_sentiment := Some (lit "negative");
           r_created_at := Some noon |} ]
    = Json200 out
    /\ precedes (lit "Kerala") (lit "Goa") (List.map state out).
Proof.
  destruct (proj1 (states_order caseless_lower naive_datetime)
              [ {| s_region := Some (lit "Panaji, Goa");
                   s_total_messages := Some 2%Z;
                   s_positive_count := Some 1%Z;
                   s_negative_count := Some 1%Z;
                   s_neutral_count := Some 0%Z |};
                {| s_region := Some (lit "Kochi, Kerala");
                   s_total_messages := Some 1%Z;
                   s_positive_count := Some 1%Z;
                   s_negative_count := Some 0%Z;
                   s_neutral_count := Some 0%Z |} ]
              [ {| r_id := Some 1%Z;
                   r_text := Some (lit "Bus was late");
                   r_region := Some (lit "Kochi, Kerala");
                   r_sentiment := Some (lit "negative");
                   r_created_at := Some noon |} ])
    as [out [Hout [Hstates Hprec]]].
  exists out. split; [exact Hout|].
  apply Hprec.
  - left. reflexivity.
  - intros [H|[]]. vm_compute in H. discriminate H.
  - rewrite Hstates. vm_compute. left. reflexivity.
  - rewrite Hstates. vm_compute. right. left. reflexivity.
Defined.

Lemma states_missing_fields_witness :
  count_tweet caseless_lower naive_datetime []
    {| r_id := Some 3%Z; r_text := None; r_region := None;
       r_sentiment := Some (lit "neutral"); r_created_at := None |}
  = update_bucket (lit "Unknown") (incr_transport (lit "bus")) [].
Proof.
  apply (proj1 (proj2 (states_missing_fields caseless_lower naive_datetime
                         naive_isoformat)));
    reflexivity.
Defined.

(** ** The further properties at concrete inputs *)

Lemma states_permutation_witness :
  let a := {| s_region := Some (lit "Mumbai, Maharashtra");
              s_total_messages := Some 10%Z;
              s_positive_count := Some 6%Z;
              s_negative_count := Some 2%Z;
              s_neutral_count := Some 2%Z |} in
  let b := {| s_region := Some (lit "Delhi");
              s_total_messages := Some 4%Z;
              s_positive_count := Some 1%Z;
              s_negative_count := Some 3%Z;
              s_neutral_count := Some 0%Z |} in
  Permutation [a; b] [b; a]
  /\ exists out out',
       get_states_summary caseless_lower naive_datetime [a; b] [] = Json200 out
       /\ get_states_summary caseless_lower naive_datetime [b; a] []
          = Json200 out'
       /\ Permutation out out'.
Proof.
  cbv zeta. split; [apply perm_swap|].
  exact (states_permutation caseless_lower naive_datetime _ _ _ _
           (perm_swap _ _ _) (perm_nil _)).
Defined.

Lemma states_merge_rows_witness :
  let a := {| s_region := Some (lit "Mumbai, Maharashtra");
              s_total_messages := Some 10%Z;
              s_positive_count := Some 6%Z;
              s_negative_count := Some 2%Z;
              s_neutral_count := Some 2%Z |} in
  let d := {| s_region := Some (lit "Delhi");
              s_total_messages := Some 4%Z;
              s_positive_count := Some 1%Z;
              s_negative_count := Some 3%Z;
              s_neutral_count := Some 0%Z |} in
  let b := {| s_region := Some (lit "Pune, Maharashtra");
              s_total_messages := Some 5%Z;
              s_positive_count := None;
              s_negative_count := Some 1%Z;
              s_neutral_count := Some 4%Z |} in
  row_state a = row_state b
  /\ get_states_summary caseless_lower naive_datetime
       ([] ++ a :: [d] ++ b :: []) []
     = get_states_summary caseless_lower naive_datetime
         ([] ++ merge_rows a b :: [d] ++ []) [].
Proof.
  cbv zeta. split; [reflexivity|].
  apply (states_merge_rows caseless_lower naive_datetime). reflexivity.
Defined.

Lemma states_totals_kept_witness :
  let rows :=
    [ {| s_region := Some (lit "Mumbai, Maharashtra");
         s_total_messages := Some 10%Z;
         s_positive_count := Some 6%Z;
         s_negative_count := Some 2%Z;
         s_neutral_count := Some 2%Z |};
      {| s_region := Some (lit "Delhi");
         s_total_messages := None;
         s_positive_count := Some 1%Z;
         s_negative_count := None;
         s_neutral_count := None |};
      {| s_region := Some (lit "Pune, Maharashtra");
         s_total_messages := Some 5%Z;
         s_positive_count := None;
         s_negative_count := Some 1%Z;
         s_neutral_count := Some 4%Z |} ] in
  Forall (fun row => (0 <= get (s_total_messages row) 0)%Z) rows
  /\ exists out,
       get_states_summary caseless_lower naive_datetime rows [] = Json200 out
       /\ sum_Z (List.map totalMessages out)
          = sum_Z (List.map (fun row => get (s_total_messages row) 0%Z) rows).
Proof.
  cbv zeta.
  assert (H : Forall (fun row => (0 <= get (s_total_messages row) 0)%Z)
                [ {| s_region := Some (lit "Mumbai, Maharashtra");
                     s_total_messages := Some 10%Z;
                     s_positive_count := Some 6%Z;
                     s_negative_count := Some 2%Z;
                     s_neutral_count := Some 2%Z |};
                  {| s_region := Some (lit "Delhi");
                     s_total_messages := None;
                     s_positive_count := Some 1%Z;
                     s_negative_count := None;
                     s_neutral_count := None |};
                  {| s_region := Some (lit "Pune, Maharashtra");
                     s_total_messages := Some 5%Z;
                     s_positive_count := None;
                     s_negative_count := Some 1%Z;
                     s_neutral_count := Some 4%Z |} ]).
  { repeat constructor; cbn; lia. }
  split; [exact H|].
  exact (states_totals_kept caseless_lower naive_datetime _ [] H).
Defined.

Lemma states_tweet_key_witness :
  let rows :=
    [ {| s_region := Some (lit "Kochi, Kerala");
         s_total_messages := Some 3%Z;
         s_positive_count := Some 1%Z;
         s_negative_count := Some 1%Z;
         s_neutral_count := Some 1%Z |} ] in
  let tweets :=
    [ {| r_id := Some 1%Z;
         r_text := Some (lit "Metro was late again");
         r_region := Some (lit "Kochi, Kerala");
         r_sentiment := Some (lit "negative");
         r_created_at := Some noon |} ] in
  let tweets' :=
    [ {| r_id := None;
         r_text := Some (lit "SUBWAY!");
         r_region := Some (lit " Kerala ");
         r_sentiment := None;
         r_created_at := None |} ] in
  List.map (tweet_key caseless_lower naive_datetime) tweets
  = List.map (tweet_key caseless_lower naive_datetime) tweets'
  /\ get_states_summary caseless_lower naive_datetime rows tweets
     = get_states_summary caseless_lower naive_datetime rows tweets'.
Proof.
  cbv zeta. split; [reflexivity|].
  apply (states_tweet_key caseless_lower naive_datetime). reflexivity.
Defined.

Lemma score_untrimmed_witness :
  (32 < 128)%N
  /\ isspace 32%N = true
  /\ determine_sentiment_score caseless_lower (32%N :: lit "positive") = 0%Q
  /\ determine_sentiment_score caseless_lower (lit "positive" ++ [32%N])
     = 0%Q.
Proof.
  assert (Hc : (32 < 128)%N) by reflexivity.
  assert (Hs : isspace 32%N = true) by reflexivity.
  split; [exact Hc|]. split; [exact Hs|].
  exact (score_untrimmed caseless_lower (lit "positive") 32%N Hc Hs).
Defined.


Lemma get_tweets_clock_witness :
  let rows :=
    [ {| r_id := Some 1%Z;
         r_text := Some (lit "Metro was late again");
         r_region := Some (lit "Kochi, Kerala");
         r_sentiment := Some (lit "negative");
         r_created_at := Some noon |} ] in
  let later :=
    {| dt_year := 2025; dt_month := 1; dt_day := 1;
       dt_hour := 8; dt_minute := 30; dt_second := 15 |} in
  Forall (fun row => r_created_at row <> None) rows
  /\ get_tweets caseless_lower naive_datetime naive_isoformat
       (fun _ => noon) rows
     = get_tweets caseless_lower naive_datetime naive_isoformat
         (fun _ => later) rows.
Proof.
  cbv zeta.
  assert (H : Forall (fun row : RawRecord naive_datetime =>
                        r_created_at row <> None)
                [ {| r_id := Some 1%Z;
                     r_text := Some (lit "Metro was late again");
                     r_region := Some (lit "Kochi, Kerala");
                     r_sentiment := Some (lit "negative");
                     r_created_at := Some noon |} ]).
  { repeat constructor. discriminate. }
  split; [exact H|].
  exact (get_tweets_clock caseless_lower naive_datetime naive_isoformat
           _ _ _ H).
Defined.
